(** * A benchmark harness (index.js), verified over a shallow embedding

    The program registers nine synchronous workloads, runs each one twice
    (a warm-up call, then a measured call), prints one fixed-width row per
    workload, runs one asynchronous workload, and prints a total.

    The embedding follows the source:
    - a JavaScript number is an IEEE 754 binary64 value ([spec_float] at
      precision 53, exponent bound 1024), with the library's correctly
      rounded [SFadd], [SFsub] and [SFdiv];
    - a JavaScript string is its sequence of UTF-16 code units;
    - [Number.prototype.toFixed], [parseFloat], [padStart], [padEnd] and
      [repeat] are written out from their ECMAScript definitions;
    - the runner is a function of the world its workloads act on, and
      returns the completion (normal or thrown), the new world and the
      chronological trace of what it printed and which workloads it
      called;
    - the loops of the workloads are functions of their bounds, over the
      built-in operations they call, written out in the same way: the
      remainder, [===], typed arrays, [Set] and [Map], [split], [join],
      [toUpperCase] and regular expressions. *)

From Stdlib Require Import ZArith NArith QArith Qround Qabs.
From Stdlib Require Import List Ascii String Lia Bool Zpower.
From Stdlib Require Import Floats.SpecFloat.
From Stdlib Require Import DecimalN DecimalFacts.
Import ListNotations.

Close Scope Q_scope.
Set Implicit Arguments.
Set Warnings "-abstract-large-number".

(** ** JavaScript strings *)

Module JsString.

(** A string is a list of UTF-16 code units. *)
Abbreviation code_unit := N (only parsing).
Definition jsstring := list code_unit.

(** A literal whose characters are all below U+0100. *)
Definition str (s : string) : jsstring :=
  map N_of_ascii (list_ascii_of_string s).

Definition space : code_unit := 32%N.

(** [String.prototype.repeat] *)
Fixpoint repeat (s : jsstring) (count : nat) : jsstring :=
  match count with
  | O => []
  | S k => s ++ repeat s k
  end.

(** [String.prototype.padEnd] with the default filler, one space: a string
    already [maxLength] long or longer is returned as it is. *)
Definition padEnd (maxLength : nat) (s : jsstring) : jsstring :=
  s ++ List.repeat space (maxLength - List.length s).

(** [String.prototype.padStart] with the default filler. *)
Definition padStart (maxLength : nat) (s : jsstring) : jsstring :=
  List.repeat space (maxLength - List.length s) ++ s.

Definition is_digit (c : code_unit) : bool :=
  ((48 <=? c) && (c <=? 57))%N.

End JsString.
Import JsString.

(** ** JavaScript numbers *)

Module JsNumber.

Definition prec : Z := 53.
Definition emax : Z := 1024.

Definition number := spec_float.

Definition fadd : number -> number -> number := SFadd prec emax.
Definition fsub : number -> number -> number := SFsub prec emax.
Definition fdiv : number -> number -> number := SFdiv prec emax.

(** The number nearest to an integer, as a numeric literal denotes it. *)
Definition of_Z (z : Z) : number := binary_normalize prec emax z 0 false.

Definition zero : number := S754_zero false.

Definition is_finite (x : number) : bool :=
  match x with
  | S754_zero _ | S754_finite _ _ _ => true
  | _ => false
  end.

(** The rational number [m * 2^e]. *)
Definition magnitude (m : positive) (e : Z) : Q :=
  match e with
  | Zneg p => Zpos m # (2 ^ p)%positive
  | _ => inject_Z (Zpos m * 2 ^ e)
  end.

(** The absolute value of a finite number, as a rational; 0 otherwise. *)
Definition abs_Q (x : number) : Q :=
  match x with
  | S754_finite _ m e => magnitude m e
  | _ => 0%Q
  end.

Definition is_negative (x : number) : bool :=
  match x with
  | S754_finite s _ _ => s
  | _ => false
  end.

(** The integer nearest to a rational, the larger of two that are
    equally near. *)
Definition round_half_up (q : Q) : Z := Qfloor (q + (1 # 2))%Q.

(** *** Decimal digits *)

Fixpoint digits_of_uint (d : Decimal.uint) : jsstring :=
  match d with
  | Decimal.Nil => []
  | Decimal.D0 d => 48%N :: digits_of_uint d
  | Decimal.D1 d => 49%N :: digits_of_uint d
  | Decimal.D2 d => 50%N :: digits_of_uint d
  | Decimal.D3 d => 51%N :: digits_of_uint d
  | Decimal.D4 d => 52%N :: digits_of_uint d
  | Decimal.D5 d => 53%N :: digits_of_uint d
  | Decimal.D6 d => 54%N :: digits_of_uint d
  | Decimal.D7 d => 55%N :: digits_of_uint d
  | Decimal.D8 d => 56%N :: digits_of_uint d
  | Decimal.D9 d => 57%N :: digits_of_uint d
  end.

(** The decimal numeral of a natural number, ["0"] for zero. *)
Definition decimal (n : N) : jsstring := digits_of_uint (N.to_uint n).

(** *** Number::toString, for the values [toFixed] hands to it *)

(** Does the decimal integer [v] denote [x], that is, round to it? *)
Definition denotes (v : Z) (x : number) : bool :=
  SFeqb (of_Z v) x.

(** The shortest decimal [s * 10^p] that denotes the integer-valued [x],
    whose exact value is [X] and which has [n] decimal digits: the digit
    counts [k = 1, 2, ...] are tried in turn; of two candidates with the
    same [k] the one nearer to [X] wins. *)
Fixpoint shortest (fuel : nat) (k : nat) (n : nat) (X : Z) (x : number) : Z :=
  let p := (10 ^ Z.of_nat (n - k))%Z in
  let lo := ((X / p) * p)%Z in
  let hi := (lo + p)%Z in
  match fuel with
  | O => X
  | S fuel' =>
      match denotes lo x, denotes hi x with
      | true, true => if (X - lo <=? hi - X)%Z then lo else hi
      | true, false => lo
      | false, true => hi
      | false, false => shortest fuel' (S k) n X x
      end
  end.

Fixpoint strip_zeros_rev (r : jsstring) : jsstring :=
  match r with
  | c :: r' => if N.eqb c 48 then strip_zeros_rev r' else r
  | [] => []
  end.

Definition strip_trailing_zeros (s : jsstring) : jsstring :=
  rev (strip_zeros_rev (rev s)).

(** [Number::toString(x)] for a finite [x >= 10^21], whose exponent [n]
    is above 21: the digits [d.ddd], then ["e+"] and [n - 1]. *)
Definition toString_large (m : positive) (e : Z) : jsstring :=
  let X := (Zpos m * 2 ^ e)%Z in
  let n := List.length (decimal (Z.to_N X)) in
  let v := shortest 17 1 n X (S754_finite false m e) in
  let all := decimal (Z.to_N v) in
  let s := strip_trailing_zeros all in
  match s with
  | [] => all
  | d :: ds =>
      (d :: match ds with [] => [] | _ => 46%N :: ds end)
        ++ str "e+" ++ decimal (N.of_nat (List.length all - 1))
  end.

(** *** Number.prototype.toFixed *)

(** The integer [n] for which [n / 10^f - x] is as close to zero as
    possible, the larger one if there are two; [x = m * 2^e > 0]. *)
Definition nearest_scaled (f : nat) (m : positive) (e : Z) : Z :=
  let num := (Zpos m * 10 ^ Z.of_nat f)%Z in
  match e with
  | Zneg p => ((2 * num + 2 ^ Zpos p) / (2 * 2 ^ Zpos p))%Z
  | _ => (num * 2 ^ e)%Z
  end.

(** Is [m * 2^e >= 10^21]? *)
Definition at_least_1e21 (m : positive) (e : Z) : bool :=
  match e with
  | Zneg p => (10 ^ 21 * 2 ^ Zpos p <=? Zpos m)%Z
  | _ => (10 ^ 21 <=? Zpos m * 2 ^ e)%Z
  end.

(** The digits of [n] with a decimal point before the last [f] of them,
    zeros added in front so that one digit stands before the point. *)
Definition fixed_digits (f : nat) (n : Z) : jsstring :=
  let m := decimal (Z.to_N n) in
  match f with
  | O => m
  | S _ =>
      let m := List.repeat 48%N (S f - List.length m) ++ m in
      let k := List.length m in
      firstn (k - f) m ++ 46%N :: skipn (k - f) m
  end.

Definition toFixed (fractionDigits : nat) (x : number) : jsstring :=
  match x with
  | S754_nan => str "NaN"
  | S754_infinity false => str "Infinity"
  | S754_infinity true => str "-Infinity"
  | S754_zero _ => fixed_digits fractionDigits 0
  | S754_finite s m e =>
      (if s then str "-" else [])
        ++ (if at_least_1e21 m e then toString_large m e
            else
              fixed_digits fractionDigits
                (nearest_scaled fractionDigits m e))
  end.

(** *** parseFloat *)

(** WhiteSpace and LineTerminator code units, which [parseFloat] skips at
    the start of its argument. *)
Definition is_white_space (c : code_unit) : bool :=
  (existsb (N.eqb c)
     [9; 10; 11; 12; 13; 32; 160; 0x1680; 0x2028; 0x2029; 0x202F; 0x205F;
      0x3000; 0xFEFF]
   || ((0x2000 <=? c) && (c <=? 0x200A)))%N.

Fixpoint trim_start (s : jsstring) : jsstring :=
  match s with
  | c :: r => if is_white_space c then trim_start r else s
  | [] => []
  end.

(** The longest run of decimal digits at the start, and what follows. *)
Fixpoint take_digits (s : jsstring) : jsstring * jsstring :=
  match s with
  | c :: r =>
      if is_digit c then let (ds, rest) := take_digits r in (c :: ds, rest)
      else ([], s)
  | [] => ([], [])
  end.

Definition digits_value (ds : jsstring) : Z :=
  fold_left (fun acc c => (10 * acc + (Z.of_N c - 48))%Z) ds 0%Z.

Fixpoint starts_with (p s : jsstring) : bool :=
  match p, s with
  | [], _ => true
  | a :: p', b :: s' => N.eqb a b && starts_with p' s'
  | _ :: _, [] => false
  end.

(** The value of an ExponentPart at the start of [rest], 0 if there is
    none (an [e] that no digit follows is not part of the literal). *)
Definition parse_exponent (rest : jsstring) : Z :=
  match rest with
  | c :: r =>
      if (N.eqb c 101 || N.eqb c 69)%N then
        match r with
        | 43%N :: r' => digits_value (fst (take_digits r'))
        | 45%N :: r' => (- digits_value (fst (take_digits r')))%Z
        | _ => digits_value (fst (take_digits r))
        end
      else 0%Z
  | [] => 0%Z
  end.

Variant literal :=
  | LitInfinity
  | LitDecimal (n : Z) (e10 : Z).  (* n * 10^e10 *)

(** The longest prefix that is a StrUnsignedDecimalLiteral. *)
Definition parse_unsigned (s : jsstring) : option literal :=
  if starts_with (str "Infinity") s then Some LitInfinity
  else
    let (ip, r1) := take_digits s in
    match r1 with
    | 46%N :: r2 =>
        let (fp, r3) := take_digits r2 in
        match ip, fp with
        | [], [] => None
        | _, _ =>
            Some (LitDecimal (digits_value (ip ++ fp))
                    (parse_exponent r3 - Z.of_nat (List.length fp)))
        end
    | _ =>
        match ip with
        | [] => None
        | _ => Some (LitDecimal (digits_value ip) (parse_exponent r1))
        end
    end.

(** The number nearest to [n * 10^e10] (ties to even), with sign [s]. *)
Definition round_decimal (s : bool) (n e10 : Z) : number :=
  match n with
  | Zpos m =>
      match e10 with
      | Zneg q =>
          SFdiv prec emax (S754_finite s m 0)
            (S754_finite false (Z.to_pos (10 ^ Zpos q)) 0)
      | _ => binary_round prec emax s (Z.to_pos (Zpos m * 10 ^ e10)) 0
      end
  | _ => S754_zero s
  end.

Definition literal_value (s : bool) (l : option literal) : number :=
  match l with
  | None => S754_nan
  | Some LitInfinity => S754_infinity s
  | Some (LitDecimal n e10) => round_decimal s n e10
  end.

Definition parseFloat (input : jsstring) : number :=
  match trim_start input with
  | 43%N :: r => literal_value false (parse_unsigned r)
  | 45%N :: r => literal_value true (parse_unsigned r)
  | r => literal_value false (parse_unsigned r)
  end.

End JsNumber.
Import JsNumber.

(** ** Effects: completions, the trace, and the runner's monad *)

(** A thrown value, as [console.error] shows it. *)
Definition exn := jsstring.

(** How a call ends: it returns, or it throws (an awaited promise that was
    rejected throws its reason). *)
Variant completion (A : Type) :=
  | Normal (a : A)
  | Throw (e : exn).
Arguments Normal {A} a.
Arguments Throw {A} e.

(** What the runner does, in the order it does it: a line written by
    [console.log], or a call of a workload (recorded under the name of the
    descriptor; the source does not record calls, the trace does). *)
Variant event :=
  | Printed (line : jsstring)
  | Called (name : jsstring).

Definition printed (tr : list event) : list jsstring :=
  flat_map (fun ev => match ev with Printed l => [l] | Called _ => [] end) tr.

Definition called (tr : list event) : list jsstring :=
  flat_map (fun ev => match ev with Called n => [n] | Printed _ => [] end) tr.

(** A workload acts on the world [W] it runs in (the clock, the heap) and
    returns the elapsed time it measured itself, or throws. *)
Definition workload (W : Type) := W -> completion number * W.

Module Test.
(** An entry of the [tests] array. *)
Record t (W : Type) := make {
  name : jsstring;
  fn : workload W;
  iterations : number
}.
Arguments make {W} name fn iterations.
Arguments name {W} t.
Arguments fn {W} t.
Arguments iterations {W} t.
End Test.

Module Result.
(** An entry of the [results] array: both numbers are kept as the text
    [toFixed] made of them. *)
Record t := make {
  name : jsstring;
  time : jsstring;
  opsPerSec : jsstring
}.
End Result.

(** The host the process runs on: the global [Bun], when there is one, with
    its [version], and [process.version]. *)
Record Host := {
  Bun : option jsstring;
  process_version : jsstring
}.

(** U+2550, the character of the rule lines. *)
Definition box_double_horizontal : jsstring := [0x2550%N].

Section Runner.

Variable W : Type.

(** A computation reads and writes the world, may throw, and appends to
    the trace. *)
Definition M (A : Type) := W -> completion A * W * list event.

Definition ret {A} (a : A) : M A := fun w => (Normal a, w, []).

Definition bind {A B} (c : M A) (k : A -> M B) : M B :=
  fun w =>
    match c w with
    | (Normal a, w1, tr1) =>
        match k a w1 with
        | (r, w2, tr2) => (r, w2, tr1 ++ tr2)
        end
    | (Throw e, w1, tr1) => (Throw e, w1, tr1)
    end.

Notation "x <- c ;; k" := (bind c (fun x => k))
  (at level 61, c at next level, right associativity).
Notation "c ;; k" := (bind c (fun _ => k))
  (at level 61, right associativity).

(** [console.log(line)] *)
Definition console_log (line : jsstring) : M unit :=
  fun w => (Normal tt, w, [Printed line]).

(** A call [f()] of the workload registered as [name]. *)
Definition call (name : jsstring) (f : workload W) : M number :=
  fun w => let (r, w1) := f w in (r, w1, [Called name]).

(** The body of [for (const test of tests)]. *)
Definition run_test (test : Test.t W) (results : list Result.t)
  : M (list Result.t) :=
  (* Warm up *)
  call (Test.name test) (Test.fn test) ;;
  (* Run test *)
  time <- call (Test.name test) (Test.fn test) ;;
  let opsPerSec :=
    toFixed 0 (fdiv (Test.iterations test) (fdiv time (of_Z 1000))) in
  let results :=
    results ++ [Result.make (Test.name test) (toFixed 2 time) opsPerSec] in
  console_log
    (padEnd 25 (Test.name test) ++ str " "
       ++ padStart 10 (toFixed 2 time) ++ str " ms  "
       ++ padStart 15 opsPerSec ++ str " ops/sec") ;;
  ret results.

Fixpoint for_of (tests : list (Test.t W)) (results : list Result.t)
  : M (list Result.t) :=
  match tests with
  | [] => ret results
  | test :: rest =>
      results <- run_test test results ;;
      for_of rest results
  end.

(** [results.reduce((sum, r) => sum + parseFloat(r.time), 0)] *)
Definition total (results : list Result.t) : number :=
  fold_left (fun sum r => fadd sum (parseFloat (Result.time r))) results zero.

Definition runtime (host : Host) : jsstring :=
  match Bun host with Some _ => str "Bun" | None => str "Node.js" end.

Definition version (host : Host) : jsstring :=
  match Bun host with Some v => v | None => process_version host end.

Definition async_name : jsstring := str "testAsyncOperations".

(** [runBenchmarks], over the array [tests] and the asynchronous workload
    it awaits. *)
Definition runBenchmarks (host : Host) (tests : list (Test.t W))
    (testAsyncOperations : workload W) : M unit :=
  console_log (repeat box_double_horizontal 60) ;;
  console_log (str "  Performance Stress Test - " ++ runtime host
                 ++ str " " ++ version host) ;;
  console_log (repeat box_double_horizontal 60) ;;
  console_log [] ;;
  results <- for_of tests [] ;;
  (* Async test *)
  console_log [] ;;
  console_log (str "Running async operations test...") ;;
  asyncTime <- call async_name testAsyncOperations ;;
  console_log
    (padEnd 25 (str "Async/Promise") ++ str " "
       ++ padStart 10 (toFixed 2 asyncTime) ++ str " ms  "
       ++ padStart 15
            (toFixed 0 (fdiv (of_Z 10000) (fdiv asyncTime (of_Z 1000))))
       ++ str " ops/sec") ;;
  console_log [] ;;
  console_log (repeat box_double_horizontal 60) ;;
  console_log (str "  Total Runtime: " ++ toFixed 2 (total results)
                 ++ str " ms") ;;
  console_log (repeat box_double_horizontal 60).

(** What the process leaves behind. *)
Record Process := {
  trace : list event;     (* standard output and calls, in order *)
  stderr : list exn;      (* what [console.error] wrote *)
  exitCode : Z;
  world : W
}.

(** [runBenchmarks().catch(console.error)]: a rejection is handled by
    writing its reason to the error stream. Nothing in the program calls
    [process.exit] or assigns [process.exitCode], and no rejection is left
    unhandled, so the process ends with the default status 0. *)
Definition main (host : Host) (tests : list (Test.t W))
    (testAsyncOperations : workload W) (w : W) : Process :=
  match runBenchmarks host tests testAsyncOperations w with
  | (Normal _, w1, tr) =>
      {| trace := tr; stderr := []; exitCode := 0; world := w1 |}
  | (Throw e, w1, tr) =>
      {| trace := tr; stderr := [e]; exitCode := 0; world := w1 |}
  end.

End Runner.

Arguments ret {W A} a.
Arguments bind {W A B} c k.

(** ** The workloads of index.js *)

Module Workloads.

(** A promise, once settled. *)
Variant promise (A : Type) :=
  | Fulfilled (v : A)
  | Rejected (e : exn).
Arguments Fulfilled {A} v.
Arguments Rejected {A} e.

(** What happens to the sub-operations of the asynchronous workload:
    the mapper of [Array.from] is called for index [i] and starts the
    [i]-th sub-operation; the function awaits one promise that joins
    [count] of them. *)
Variant async_event :=
  | Initiated (i : N)
  | AwaitedAll (count : nat).

(** The world of the workloads: the monotonic clock, given by the
    readings [performance.now()] returns one after the other, and the
    history of the sub-operations, the latest event first. *)
Record World := {
  clock : nat -> number;
  reads : nat;
  history : list async_event
}.

Definition performance_now (w : World) : number * World :=
  (clock w (reads w),
   {| clock := clock w; reads := S (reads w); history := history w |}).

Definition record (ev : async_event) (w : World) : World :=
  {| clock := clock w; reads := reads w; history := ev :: history w |}.


Definition ITERATIONS : number := of_Z 1000000.

(** The loop of a synchronous workload builds values and drops them: it
    reads and writes nothing of the world. *)
Definition loop (w : World) : World := w.

(** The shape all nine synchronous workloads share:
    [const start = performance.now(); for (...) {...};
     return performance.now() - start]. *)
Definition timed (body : World -> World) : workload World :=
  fun w =>
    let (start, w1) := performance_now w in
    let w2 := body w1 in
    let (now, w3) := performance_now w2 in
    (Normal (fsub now start), w3).

Definition testJSONOperations : workload World := timed loop.
Definition testStringOperations : workload World := timed loop.
Definition testArrayOperations : workload World := timed loop.
Definition testObjectOperations : workload World := timed loop.
Definition testMathOperations : workload World := timed loop.
Definition testRegExpOperations : workload World := timed loop.
Definition testFunctionCalls : workload World := timed loop.
Definition testBufferOperations : workload World := timed loop.
Definition testCollectionOperations : workload World := timed loop.

(** The mapper [async (_, i) => new Promise((resolve) => resolve(i * 2))]:
    calling it starts the sub-operation and returns its promise at once. *)
Definition sub_operation (i : N) (w : World) : promise number * World :=
  (Fulfilled (SFmul prec emax (of_Z (Z.of_N i)) (of_Z 2)),
   record (Initiated i) w).

(** [Array.from({ length }, mapper)]: the mapper is called for the indices
    [i, i + 1, ...] in turn, [length] times. *)
Fixpoint array_from {A} (length : nat) (i : N)
    (mapper : N -> World -> A * World) (w : World) : list A * World :=
  match length with
  | O => ([], w)
  | S length' =>
      let (a, w1) := mapper i w in
      let (rest, w2) := array_from length' (N.succ i) mapper w1 in
      (a :: rest, w2)
  end.

(** [Promise.all]: fulfilled with all the values when every promise is
    fulfilled, rejected with the reason of the first one that is not. *)
Fixpoint promise_all {A} (ps : list (promise A)) : promise (list A) :=
  match ps with
  | [] => Fulfilled []
  | Fulfilled v :: rest =>
      match promise_all rest with
      | Fulfilled vs => Fulfilled (v :: vs)
      | Rejected e => Rejected e
      end
  | Rejected e :: _ => Rejected e
  end.

Definition await {A} (p : promise A) : completion A :=
  match p with
  | Fulfilled v => Normal v
  | Rejected e => Throw e
  end.

Definition testAsyncOperations : workload World :=
  fun w =>
    let (start, w1) := performance_now w in
    let (promises, w2) := array_from 10000 0%N sub_operation w1 in
    let w3 := record (AwaitedAll (List.length promises)) w2 in
    match await (promise_all promises) with
    | Throw e => (Throw e, w3)
    | Normal _ =>
        let (now, w4) := performance_now w3 in
        (Normal (fsub now start), w4)
    end.

(** The array [tests] of [runBenchmarks]. *)
Definition tests : list (Test.t World) :=
  [ Test.make (str "JSON Stringify/Parse") testJSONOperations ITERATIONS;
    Test.make (str "String Manipulation") testStringOperations
      (fdiv ITERATIONS (of_Z 10));
    Test.make (str "Array Operations") testArrayOperations
      (fdiv ITERATIONS (of_Z 100));
    Test.make (str "Object Creation") testObjectOperations ITERATIONS;
    Test.make (str "Math Operations") testMathOperations ITERATIONS;
    Test.make (str "RegExp Operations") testRegExpOperations
      (fdiv ITERATIONS (of_Z 10));
    Test.make (str "Function Calls") testFunctionCalls ITERATIONS;
    Test.make (str "Buffer/TypedArray") testBufferOperations
      (fdiv ITERATIONS (of_Z 100));
    Test.make (str "Set/Map Operations") testCollectionOperations
      (fdiv ITERATIONS (of_Z 100)) ].

(** The program: [runBenchmarks().catch(console.error)]. *)
Definition program (host : Host) (w : World) : Process World :=
  main host tests testAsyncOperations w.

(** A world at the start of the process, on a given clock. *)
Definition boot (clock : nat -> number) : World :=
  {| clock := clock; reads := 0; history := [] |}.

End Workloads.

Unset Implicit Arguments.

(** * The vocabulary of the claims *)

(** ** Texts and numbers *)

Definition all_digits (s : jsstring) : Prop :=
  Forall (fun c => is_digit c = true) s.

Definition starts_with_digit (s : jsstring) : Prop :=
  exists c rest, s = c :: rest /\ is_digit c = true.

(** A number that is positive, or a positive or negative zero, or not a
    number: [toFixed] prints it without a minus sign unless it is
    [-Infinity]. *)
Definition unsigned (x : number) : bool :=
  match x with
  | S754_finite s _ _ => negb s
  | S754_infinity s => negb s
  | S754_zero s => negb s
  | S754_nan => true
  end.

(** Is [x] finite and below [10^21] in absolute value? *)
Definition below_1e21 (x : number) : bool :=
  match x with
  | S754_zero _ => true
  | S754_finite _ m e => negb (at_least_1e21 m e)
  | _ => false
  end.



(** ** Runs *)

Section RunVocabulary.

Variable W : Type.

Implicit Types (test : Test.t W) (tests : list (Test.t W)).
Implicit Types (time : number) (times : list number) (w : W).

(** [measures tests w times w'] : from the world [w], the two calls of
    every descriptor return; [times] are the values the second calls
    return, in the order of [tests], and [w'] is the world after the last
    call. The value of the first call plays no part. *)
Inductive measures : list (Test.t W) -> W -> list number -> W -> Prop :=
| measures_nil w : measures [] w [] w
| measures_cons test tests w warm w1 time w2 times w3 :
    Test.fn test w = (Normal warm, w1) ->
    Test.fn test w1 = (Normal time, w2) ->
    measures tests w2 times w3 ->
    measures (test :: tests) w (time :: times) w3.

(** The throughput the source computes: [iterations / (time / 1000)]. *)
Definition rate (count time : number) : number :=
  fdiv count (fdiv time (of_Z 1000)).

(** The entry pushed on [results] for a descriptor and its time. *)
Definition result_of (p : Test.t W * number) : Result.t :=
  Result.make (Test.name (fst p)) (toFixed 2 (snd p))
    (toFixed 0 (rate (Test.iterations (fst p)) (snd p))).

(** The template of a row, filled with a name and the two texts. *)
Definition row (name timeText opsText : jsstring) : jsstring :=
  padEnd 25 name ++ str " " ++ padStart 10 timeText ++ str " ms  "
    ++ padStart 15 opsText ++ str " ops/sec".

Definition row_of (p : Test.t W * number) : jsstring :=
  row (Test.name (fst p)) (toFixed 2 (snd p))
    (toFixed 0 (rate (Test.iterations (fst p)) (snd p))).

Definition async_row (asyncTime : number) : jsstring :=
  row (str "Async/Promise") (toFixed 2 asyncTime)
    (toFixed 0 (rate (of_Z 10000) asyncTime)).

(** What one pass of the loop adds to the trace. *)
Definition test_events (p : Test.t W * number) : list event :=
  [Called (Test.name (fst p)); Called (Test.name (fst p));
   Printed (row_of p)].

Definition rule : jsstring := repeat box_double_horizontal 60.

Definition title (host : Host) : jsstring :=
  str "  Performance Stress Test - " ++ runtime host ++ str " "
    ++ version host.

Definition header (host : Host) : list event :=
  [Printed rule; Printed (title host); Printed rule; Printed []].

Definition announcement : list event :=
  [Printed []; Printed (str "Running async operations test...")].

Definition total_line (results : list Result.t) : jsstring :=
  str "  Total Runtime: " ++ toFixed 2 (total results) ++ str " ms".

Definition footer (results : list Result.t) : list event :=
  [Printed []; Printed rule; Printed (total_line results); Printed rule].

Definition async_events (asyncTime : number) : list event :=
  [Called async_name; Printed (async_row asyncTime)].

(** The trace of a run in which every call returns. *)
Definition full_trace (host : Host) tests times (asyncTime : number)
  : list event :=
  header host ++ flat_map test_events (combine tests times)
    ++ announcement ++ async_events asyncTime
    ++ footer (map result_of (combine tests times)).

End RunVocabulary.

Arguments measures {W}.
Arguments result_of {W}.
Arguments row_of {W}.
Arguments test_events {W}.
Arguments full_trace {W}.

(** [first_failure tests asyncOp w done times last e w2] : from the world
    [w], the calls of the descriptors [done] return and measure [times];
    the next call throws [e] and leaves the world [w2]. That call is the
    warm-up call or the measured call of the descriptor after [done], or,
    when [done] is all of [tests], the call of the asynchronous workload.
    [last] is what the runner adds to the trace between the row of the last
    descriptor of [done] and the failure. *)
Inductive first_failure (W : Type) :
  list (Test.t W) -> workload W -> W -> list (Test.t W) -> list number ->
  list event -> exn -> W -> Prop :=
| fails_in_warm_up done test rest asyncOp w times w1 e w2 :
    measures done w times w1 ->
    Test.fn test w1 = (Throw e, w2) ->
    first_failure W (done ++ test :: rest) asyncOp w done times
      [Called (Test.name test)] e w2
| fails_in_measured_run done test rest asyncOp w times w1 warm w1' e w2 :
    measures done w times w1 ->
    Test.fn test w1 = (Normal warm, w1') ->
    Test.fn test w1' = (Throw e, w2) ->
    first_failure W (done ++ test :: rest) asyncOp w done times
      [Called (Test.name test); Called (Test.name test)] e w2
| fails_in_async tests asyncOp w times w1 e w2 :
    measures tests w times w1 ->
    asyncOp w1 = (Throw e, w2) ->
    first_failure W tests asyncOp w tests times
      [Printed []; Printed (str "Running async operations test...");
       Called async_name] e w2.

Arguments first_failure {W}.

(** The line before the last one printed: the line of the total. *)
Definition printed_total (tr : list event) : jsstring :=
  nth 1 (rev (printed tr)) [].

(** The sum of the measured times themselves, and the line of the total as
    it would read if that sum were printed. *)
Definition sum_of_measured (times : list number) : number :=
  fold_left fadd times zero.

Definition total_line_of_measured (times : list number) : jsstring :=
  str "  Total Runtime: " ++ toFixed 2 (sum_of_measured times) ++ str " ms".

(** The sum the source computes: every time is printed with two decimals,
    parsed again, and added. *)
Definition sum_of_displayed (times : list number) : number :=
  fold_left (fun sum E => fadd sum (parseFloat (toFixed 2 E))) times zero.



(** ** The schedule of the program *)

Module Schedule.
Import Workloads.

(** The world [k] clock readings later. *)
Definition advance (k : nat) (w : World) : World :=
  {| clock := clock w; reads := k + reads w; history := history w |}.

(** The difference of the two readings taken from the [k]-th on. *)
Definition elapsed (k : nat) (w : World) : number :=
  fsub (clock w (S (k + reads w))) (clock w (k + reads w)).

(** The times [n] synchronous workloads measure one after the other:
    each one is called twice and reads the clock twice per call. *)
Fixpoint sync_times (n : nat) (w : World) : list number :=
  match n with
  | O => []
  | S n' => elapsed 2 w :: sync_times n' (advance 4 w)
  end.

Fixpoint after (n : nat) (w : World) : World :=
  match n with
  | O => w
  | S n' => after n' (advance 4 w)
  end.

(** The [n] indices from [i] on. *)
Fixpoint indices (n : nat) (i : N) : list N :=
  match n with
  | O => []
  | S n' => i :: indices n' (N.succ i)
  end.

Definition doubled (i : N) : number :=
  SFmul prec emax (of_Z (Z.of_N i)) (of_Z 2).

End Schedule.

Module Examples.
Import Workloads.

Definition node : Host :=
  {| Bun := None; process_version := str "v20.11.0" |}.

Definition bun : Host :=
  {| Bun := Some (str "1.1.0"); process_version := str "v20.11.0" |}.

(** A clock that advances by 12.504 ms from one reading to the next. *)
Definition steady_clock (k : nat) : number :=
  fdiv (of_Z (Z.of_nat k * 12504)) (of_Z 1000).

(** A clock too coarse to advance during the run. *)
Definition frozen_clock (k : nat) : number := of_Z 5.

(** The worlds the process starts in on these clocks. *)
Definition steady : World := boot steady_clock.
Definition frozen : World := boot frozen_clock.

(** A registry with one descriptor whose declared count is 0. *)
Definition zero_count_registry : list (Test.t World) :=
  [Test.make (str "noop") (timed loop) (of_Z 0)].

(** A workload that throws. *)
Definition faulty : workload World :=
  fun w => (Throw (str "Error: out of memory"), w).

(** The registry of the program with a faulty workload put third. *)
Definition faulty_registry : list (Test.t World) :=
  firstn 2 tests
    ++ Test.make (str "Faulty") faulty ITERATIONS
    :: skipn 2 tests.


End Examples.

(** ** More of JavaScript: remainder, equality, typed arrays, sets, maps,
    split and join, regular expressions *)

Module JsBuiltins.

Definition fmul : number -> number -> number := SFmul prec emax.

(** [n % d] (Number::remainder): the sign is the sign of the dividend, and
    the result is exact. *)
Definition frem (n d : number) : number :=
  match n, d with
  | S754_nan, _ | _, S754_nan => S754_nan
  | S754_infinity _, _ => S754_nan
  | _, S754_infinity _ => n
  | _, S754_zero _ => S754_nan
  | S754_zero _, _ => n
  | S754_finite sn mn en, S754_finite _ md ed =>
      let ez := Z.min en ed in
      let N := Zpos (fst (shl_align mn en ez)) in
      let D := Zpos (fst (shl_align md ed ez)) in
      binary_normalize prec emax (cond_Zopp sn (Z.rem N D)) ez sn
  end.

(** [x === y] on numbers. *)
Definition strict_equal (x y : number) : bool := SFeqb x y.

(** SameValueZero, the equality of [Set] and [Map] keys: as [===], but
    [NaN] equals [NaN]. *)
Definition same_value_zero (x y : number) : bool :=
  match x, y with
  | S754_nan, S754_nan => true
  | _, _ => SFeqb x y
  end.

(** A key as a [Set] or a [Map] keeps it: [-0] becomes [+0]. *)
Definition key_of (x : number) : number :=
  match x with
  | S754_zero _ => zero
  | _ => x
  end.

(** *** Uint8Array *)

(** ToUint8: the integer part of the number, modulo 256; 0 for what is not
    a finite number. *)
Definition to_uint8 (x : number) : N :=
  match x with
  | S754_finite s m e =>
      let t :=
        match e with
        | Zneg p => (Zpos m / 2 ^ Zpos p)%Z
        | _ => (Zpos m * 2 ^ e)%Z
        end in
      Z.to_N ((if s then - t else t) mod 256)
  | _ => 0%N
  end.

(** [new Uint8Array(length)]: all elements 0. *)
Definition new_Uint8Array (length : nat) : list N := List.repeat 0%N length.

(** [buffer[j] = v]: the element is set to [ToUint8(v)]; a store outside
    the array does nothing. *)
Definition typed_store (buffer : list N) (j : nat) (v : number) : list N :=
  if Nat.ltb j (List.length buffer)
  then firstn j buffer ++ to_uint8 v :: skipn (S j) buffer
  else buffer.

(** *** Set and Map, in insertion order *)

Definition set_has (s : list number) (x : number) : bool :=
  existsb (same_value_zero x) s.

Definition set_add (x : number) (s : list number) : list number :=
  if set_has s x then s else s ++ [key_of x].

Definition map_has (m : list (number * number)) (k : number) : bool :=
  existsb (fun kv => same_value_zero k (fst kv)) m.

(** [map.get(k)]: [None] stands for [undefined]. *)
Definition map_get (m : list (number * number)) (k : number)
  : option number :=
  match find (fun kv => same_value_zero k (fst kv)) m with
  | Some kv => Some (snd kv)
  | None => None
  end.

(** [map.set(k, v)]: the value of an existing key is replaced where it
    stands; a new key is added at the end. *)
Definition map_set (k v : number) (m : list (number * number))
  : list (number * number) :=
  if map_has m k
  then map (fun kv => if same_value_zero k (fst kv) then (fst kv, v) else kv) m
  else m ++ [(key_of k, v)].

(** *** split and join *)

(** The pieces of [s] between the occurrences of a non-empty separator,
    found from left to right. [skip] code units of a separator just
    found are still to be passed over; [piece] is the current piece,
    reversed. *)
Fixpoint split_aux (sep : jsstring) (skip : nat) (piece : jsstring)
    (s : jsstring) : list jsstring :=
  match s with
  | [] => [rev piece]
  | c :: r =>
      match skip with
      | S k => split_aux sep k piece r
      | O =>
          if starts_with sep s
          then rev piece :: split_aux sep (List.length sep - 1) [] r
          else split_aux sep 0 (c :: piece) r
      end
  end.

(** [s.split(sep)]: with the empty separator, the code units of [s]. *)
Definition split (sep s : jsstring) : list jsstring :=
  match sep with
  | [] => map (fun c => [c]) s
  | _ => split_aux sep 0 [] s
  end.

(** [pieces.join(sep)] *)
Fixpoint join (sep : jsstring) (pieces : list jsstring) : jsstring :=
  match pieces with
  | [] => []
  | [x] => x
  | x :: rest => x ++ sep ++ join sep rest
  end.

(** *** toUpperCase *)

Definition is_ascii (c : code_unit) : bool := (c <? 128)%N.

Definition ascii_upper (c : code_unit) : code_unit :=
  if ((97 <=? c) && (c <=? 122))%N then (c - 32)%N else c.

Section UpperCase.

(** The upper case of a run of code units outside ASCII, by the Unicode
    case tables, which are not part of this program. *)
Variable unicode_upper : jsstring -> jsstring.

Definition flush (run : jsstring) : jsstring :=
  match run with
  | [] => []
  | _ => unicode_upper (rev run)
  end.

(** Upper-casing maps code point by code point, so the ASCII code units
    and the runs between them can be mapped apart; [run] is the current
    run outside ASCII, reversed. *)
Fixpoint upper_aux (run : jsstring) (s : jsstring) : jsstring :=
  match s with
  | [] => flush run
  | c :: r =>
      if is_ascii c then flush run ++ ascii_upper c :: upper_aux [] r
      else upper_aux (c :: run) r
  end.

Definition toUpperCase (s : jsstring) : jsstring := upper_aux [] s.

End UpperCase.

(** *** Regular expressions without flags, on code units *)

Inductive regex :=
  | Never
  | Epsilon
  | Class (c : code_unit -> bool)
  | Cat (r1 r2 : regex)
  | Alt (r1 r2 : regex)
  | Star (r : regex).

Fixpoint nullable (r : regex) : bool :=
  match r with
  | Never => false
  | Epsilon => true
  | Class _ => false
  | Cat r1 r2 => nullable r1 && nullable r2
  | Alt r1 r2 => nullable r1 || nullable r2
  | Star _ => true
  end.

(** What is left of [r] to match after the code unit [c]. *)
Fixpoint derive (c : code_unit) (r : regex) : regex :=
  match r with
  | Never => Never
  | Epsilon => Never
  | Class p => if p c then Epsilon else Never
  | Cat r1 r2 =>
      if nullable r1
      then Alt (Cat (derive c r1) r2) (derive c r2)
      else Cat (derive c r1) r2
  | Alt r1 r2 => Alt (derive c r1) (derive c r2)
  | Star r1 => Cat (derive c r1) (Star r1)
  end.

(** Does the whole of [s] match [r]? This is what [/^r$/.test(s)] returns:
    the search tries every way to match, and the anchors pin both ends. *)
Fixpoint matches (r : regex) (s : jsstring) : bool :=
  match s with
  | [] => nullable r
  | c :: rest => matches (derive c r) rest
  end.

(** [r+] and [r{2,}] *)
Definition plus (r : regex) : regex := Cat r (Star r).
Definition at_least_two (r : regex) : regex := Cat r (Cat r (Star r)).

(** The matches of [/[class]+/g], as [s.match] returns them: the maximal
    runs of code units of the class, from left to right; [run] is the
    current run, reversed. *)
Fixpoint runs (class : code_unit -> bool) (run : jsstring) (s : jsstring)
  : list jsstring :=
  match s with
  | [] => match run with [] => [] | _ => [rev run] end
  | c :: r =>
      if class c then runs class (c :: run) r
      else
        match run with
        | [] => runs class [] r
        | _ => rev run :: runs class [] r
        end
  end.

(** [s.match(/[class]+/g)]: [None] stands for [null], returned when
    nothing matches. *)
Definition match_all (class : code_unit -> bool) (s : jsstring)
  : option (list jsstring) :=
  match runs class [] s with
  | [] => None
  | found => Some found
  end.

(** The texts a regular expression denotes. *)
Inductive denoted : regex -> jsstring -> Prop :=
| denoted_epsilon : denoted Epsilon []
| denoted_class p c : p c = true -> denoted (Class p) [c]
| denoted_cat r1 r2 s1 s2 :
    denoted r1 s1 -> denoted r2 s2 -> denoted (Cat r1 r2) (s1 ++ s2)
| denoted_left r1 r2 s : denoted r1 s -> denoted (Alt r1 r2) s
| denoted_right r1 r2 s : denoted r2 s -> denoted (Alt r1 r2) s
| denoted_star_nil r : denoted (Star r) []
| denoted_star_more r s1 s2 :
    denoted r s1 -> denoted (Star r) s2 -> denoted (Star r) (s1 ++ s2).


End JsBuiltins.

(** ** The loops of the workloads *)

Module Bodies.
Import JsBuiltins.

(** [for (let i = start; i < start + n; i++) body(i)], on the state the
    body updates. The counter is kept as the integer it is: below [2^53]
    the number [i++] computes is that integer. *)
Fixpoint for_range {S : Type} (n : nat) (i : Z) (body : Z -> S -> S) (s : S)
  : S :=
  match n with
  | O => s
  | S n' => for_range n' (i + 1)%Z body (body i s)
  end.

(** testFunctionCalls: [result = add(result, i)] for [i] below
    [iterations], from [result = 0]. *)
Definition add (a b : number) : number := fadd a b.

Definition function_calls (iterations : nat) : number :=
  for_range iterations 0 (fun i result => add result (of_Z i)) zero.

(** testArrayOperations: [Array.from({ length }, (_, i) => i)], then
    [.map((x) => x * 2).filter((x) => x % 4 === 0)
     .reduce((a, b) => a + b, 0)]. *)
Definition array_of_indices (length : nat) : list number :=
  map (fun i => of_Z (Z.of_nat i)) (seq 0 length).

Definition array_pipeline (length : nat) : number :=
  fold_left (fun a b => fadd a b)
    (filter (fun x => strict_equal (frem x (of_Z 4)) (of_Z 0))
       (map (fun x => fmul x (of_Z 2)) (array_of_indices length)))
    zero.

(** testObjectOperations: [obj.a + obj.b + obj.c + obj.d + obj.e] of
    [{ a: 1, b: 2, c: 3, d: 4, e: 5 }]. *)
Definition object_sum : number :=
  fadd (fadd (fadd (fadd (of_Z 1) (of_Z 2)) (of_Z 3)) (of_Z 4)) (of_Z 5).

(** testBufferOperations: [buffer[j] = j % 256] for [j] below
    [buffer.length], on [new Uint8Array(length)]. *)
Definition buffer_fill (length : nat) : list N :=
  for_range length 0
    (fun j buffer => typed_store buffer (Z.to_nat j) (frem (of_Z j) (of_Z 256)))
    (new_Uint8Array length).

(** testCollectionOperations: [set.add(j); map.set(j, j * 2)] for [j] below
    [count], on an empty [Set] and an empty [Map]. *)
Definition collections (count : nat)
  : list number * list (number * number) :=
  for_range count 0
    (fun j sm =>
       (set_add (of_Z j) (fst sm),
        map_set (of_Z j) (fmul (of_Z j) (of_Z 2)) (snd sm)))
    ([], []).

(** testStringOperations: [result = "Hello".repeat(10) + " " +
    "World".repeat(10)], then [result.split(" ").join("-").toUpperCase()]. *)
Definition string_result : jsstring :=
  repeat (str "Hello") 10 ++ str " " ++ repeat (str "World") 10.

Definition dashed_upper (unicode_upper : jsstring -> jsstring)
    (result : jsstring) : jsstring :=
  toUpperCase unicode_upper (join (str "-") (split (str " ") result)).

(** testRegExpOperations: the pattern
    [/^[a-zA-Z0-9._%+-]+@[a-zA-Z0-9.-]+\.[a-zA-Z]{2,}$/], the text, and
    [text.match(/[0-9]+/g)]. *)
Definition is_letter (c : code_unit) : bool :=
  (((97 <=? c) && (c <=? 122)) || ((65 <=? c) && (c <=? 90)))%N.

Definition local_char (c : code_unit) : bool :=
  (is_letter c || is_digit c
   || existsb (N.eqb c) [46; 95; 37; 43; 45])%N.   (* . _ % + - *)

Definition domain_char (c : code_unit) : bool :=
  (is_letter c || is_digit c || existsb (N.eqb c) [46; 45])%N.   (* . - *)

Definition pattern : regex :=
  Cat (plus (Class local_char))
    (Cat (Class (N.eqb 64))                       (* @ *)
       (Cat (plus (Class domain_char))
          (Cat (Class (N.eqb 46))                 (* \. *)
             (at_least_two (Class is_letter))))).

Definition text : jsstring := str "test.email123@example.com".

(** *** What the loops compute *)

(** The sum of the [n] integers from [i] on. *)
Definition sum_from (i : Z) (n : nat) : Z :=
  (Z.of_nat n * i + Z.of_nat n * (Z.of_nat n - 1) / 2)%Z.

(** The sum of the multiples of 4 among the doubles of the indices below
    [n]. *)
Definition sum_of_kept (n : Z) : Z :=
  (2 * ((n + 1) / 2) * ((n + 1) / 2 - 1))%Z.

(** What the buffer holds at index [j] after the loop. *)
Definition wrapped (j : nat) : N := N.of_nat (j mod 256).

(** The entries of the map after the keys below [n]. *)
Definition doubles (n : nat) : list (number * number) :=
  map (fun j => (of_Z (Z.of_nat j), of_Z (Z.of_nat j * 2))) (seq 0 n).

End Bodies.

(** ** Integers and rationals that numbers are *)

(** The number an integer [z] with [0 < z < 2^53] is, with sign [s]: the
    mantissa is [z] shifted to 53 bits. *)
Definition canon (s : bool) (z : Z) : number :=
  S754_finite s (Z.to_pos (z * 2 ^ (52 - Z.log2 z))) (Z.log2 z - 52).

(** The rational a finite number is; 0 for what is not finite. *)
Definition value (x : number) : Q :=
  if is_negative x then (- abs_Q x)%Q else abs_Q x.

(** One step of [digits_value]. *)
Definition digit_step (acc : Z) (c : code_unit) : Z :=
  (10 * acc + (Z.of_N c - 48))%Z.

Definition is_byte (b : N) : Prop := (b < 256)%N.

(** * Facts about strings and numbers *)

Section StringFacts.



Lemma padEnd_long (n : nat) (s : jsstring) :
  n <= List.length s -> padEnd n s = s.
Proof.
  intros H. unfold padEnd.
  replace (n - List.length s) with 0 by lia. apply List.app_nil_r.
Qed.

Lemma padStart_long (n : nat) (s : jsstring) :
  n <= List.length s -> padStart n s = s.
Proof.
  intros H. unfold padStart.
  replace (n - List.length s) with 0 by lia. reflexivity.
Qed.

Lemma firstn_padEnd (n : nat) (s : jsstring) :
  firstn (List.length s) (padEnd n s) = s.
Proof.
  unfold padEnd. rewrite firstn_app, Nat.sub_diag, firstn_all.
  simpl. apply List.app_nil_r.
Qed.

End StringFacts.

Section NumberFacts.

Lemma digits_of_uint_digits (d : Decimal.uint) :
  all_digits (digits_of_uint d).
Proof.
  induction d; simpl; constructor; solve [reflexivity | assumption].
Qed.

Lemma decimal_digits (n : N) : all_digits (decimal n).
Proof. apply digits_of_uint_digits. Qed.

Lemma decimal_nonempty (n : N) : decimal n <> [].
Proof.
  unfold decimal. destruct n as [|p]; simpl; [discriminate|].
  pose proof (DecimalPos.Unsigned.to_uint_nonnil p) as H.
  destruct (Pos.to_uint p); simpl; solve [congruence | discriminate].
Qed.

(** [nearest_scaled] rounds [x * 10^f] to the nearest integer, half up. *)

Lemma Qfloor_frac (a : Z) (b : positive) : Qfloor (a # b) = (a / Zpos b)%Z.
Proof. reflexivity. Qed.

Lemma nearest_scaled_round (f : nat) (m : positive) (e : Z) :
  nearest_scaled f m e
  = round_half_up (magnitude m e * inject_Z (10 ^ Z.of_nat f))%Q.
Proof.
  unfold nearest_scaled, round_half_up, magnitude.
  set (t := (10 ^ Z.of_nat f)%Z).
  destruct e as [|p|p].
  - rewrite (Qfloor_comp _ ((1 + (Z.pos m * t) * 2) # 2)).
    + rewrite Qfloor_frac, Z.div_add by lia. rewrite Z.pow_0_r.
      change (1 / 2)%Z with 0%Z. ring.
    + unfold Qeq, Qplus, Qmult, inject_Z. cbn [Qnum Qden].
      rewrite Z.pow_0_r, !Pos2Z.inj_mul. ring.
  - rewrite (Qfloor_comp _ ((1 + (Z.pos m * t * 2 ^ Z.pos p) * 2) # 2)).
    + rewrite Qfloor_frac, Z.div_add by lia.
      change (1 / 2)%Z with 0%Z. ring.
    + unfold Qeq, Qplus, Qmult, inject_Z. cbn [Qnum Qden].
      rewrite !Pos2Z.inj_mul. ring.
  - rewrite (Qfloor_comp _ ((2 * (Z.pos m * t) + 2 ^ Z.pos p) # (2 * 2 ^ p))).
    + rewrite Qfloor_frac, Pos2Z.inj_mul, Pos2Z.inj_pow. reflexivity.
    + unfold Qeq, Qplus, Qmult, inject_Z. cbn [Qnum Qden].
      rewrite !Pos2Z.inj_mul, !Pos2Z.inj_pow. ring.
Qed.

(** Below 10^21 a finite number is printed by [toFixed] as the digits of
    its value scaled by [10^f] and rounded half up, after its sign. *)
Lemma toFixed_finite (f : nat) (s : bool) (m : positive) (e : Z) :
  at_least_1e21 m e = false ->
  toFixed f (S754_finite s m e)
  = (if s then str "-" else [])
      ++ fixed_digits f
           (round_half_up (magnitude m e * inject_Z (10 ^ Z.of_nat f))%Q).
Proof.
  intros H. unfold toFixed. rewrite H, nearest_scaled_round. reflexivity.
Qed.



(** *** The shape of what [toFixed] prints *)

Lemma all_digits_zeros (k : nat) : all_digits (List.repeat 48%N k).
Proof.
  apply Forall_forall. intros c H. apply repeat_spec in H. subst.
  reflexivity.
Qed.

(** With fraction digits: digits, a point, and exactly that many digits. *)
Lemma fixed_digits_shape (f : nat) (n : Z) :
  exists a b,
    fixed_digits (S f) n = a ++ 46%N :: b
    /\ a <> [] /\ all_digits a
    /\ List.length b = S f /\ all_digits b.
Proof.
  unfold fixed_digits.
  set (d := decimal (Z.to_N n)).
  set (m := List.repeat 48%N (S (S f) - List.length d) ++ d).
  assert (Hlen : S (S f) <= List.length m).
  { unfold m. rewrite length_app, repeat_length.
    generalize (List.length d). clear. intros k. lia. }
  assert (Hm : all_digits m).
  { unfold m. apply Forall_app. split;
      [apply all_digits_zeros | apply decimal_digits]. }
  rewrite <- (firstn_skipn (List.length m - S f) m) in Hm.
  apply Forall_app in Hm. destruct Hm as [Ha Hb].
  exists (firstn (List.length m - S f) m), (skipn (List.length m - S f) m).
  repeat split; try assumption.
  - intros E. apply (f_equal (@List.length _)) in E.
    rewrite length_firstn in E. simpl in E.
    revert Hlen E. generalize (List.length m). clear. intros k. lia.
  - rewrite length_skipn.
    revert Hlen. generalize (List.length m). clear. intros k. lia.
Qed.

Lemma strip_zeros_rev_digits (r : jsstring) :
  all_digits r -> all_digits (strip_zeros_rev r).
Proof.
  induction 1 as [|c r Hc Hr IH]; simpl; [constructor|].
  destruct (N.eqb c 48); [assumption | constructor; assumption].
Qed.

Lemma strip_trailing_zeros_digits (s : jsstring) :
  all_digits s -> all_digits (strip_trailing_zeros s).
Proof.
  intros H. unfold strip_trailing_zeros.
  apply Forall_rev, strip_zeros_rev_digits, Forall_rev, H.
Qed.

Lemma digits_start (s : jsstring) :
  s <> [] -> all_digits s -> starts_with_digit s.
Proof.
  intros Hne H. destruct H as [|c rest Hc _]; [congruence|].
  exists c, rest. split; [reflexivity | assumption].
Qed.

Lemma starts_with_digit_app (a b : jsstring) :
  starts_with_digit a -> starts_with_digit (a ++ b).
Proof.
  intros (c & rest & -> & Hc). exists c, (rest ++ b).
  split; [reflexivity | assumption].
Qed.

Lemma fixed_digits_start (f : nat) (n : Z) :
  starts_with_digit (fixed_digits f n).
Proof.
  destruct f as [|f].
  - apply digits_start; [apply decimal_nonempty | apply decimal_digits].
  - destruct (fixed_digits_shape f n) as (a & b & -> & Ha & Hd & _).
    apply starts_with_digit_app, digits_start; assumption.
Qed.

Lemma toString_large_start (m : positive) (e : Z) :
  starts_with_digit (toString_large m e).
Proof.
  unfold toString_large.
  set (all := decimal _).
  assert (Hall : all_digits all) by apply decimal_digits.
  pose proof (strip_trailing_zeros_digits _ Hall) as Hs.
  destruct (strip_trailing_zeros all) as [|d ds].
  - apply digits_start; [apply decimal_nonempty | assumption].
  - inversion Hs; subst. eexists d, _. split; [reflexivity | assumption].
Qed.

(** A finite number is printed as an optional minus sign and then a
    digit (and more). *)
Lemma toFixed_finite_start (f : nat) (x : number) :
  is_finite x = true ->
  exists body,
    toFixed f x = (if is_negative x then str "-" else []) ++ body
    /\ starts_with_digit body.
Proof.
  destruct x as [s|s| |s m e]; simpl; try discriminate; intros _.
  - eexists. split; [reflexivity | apply fixed_digits_start].
  - eexists. split; [reflexivity|].
    destruct (at_least_1e21 m e);
      [apply toString_large_start | apply fixed_digits_start].
Qed.

(** [toFixed] prints one of the three texts for what is not a finite
    number exactly when its argument is not finite. *)
Lemma toFixed_not_finite (f : nat) (x : number) :
  In (toFixed f x) [str "NaN"; str "Infinity"; str "-Infinity"]
  <-> is_finite x = false.
Proof.
  split.
  - intros H. destruct (is_finite x) eqn:Hfin; [exfalso | reflexivity].
    destruct (toFixed_finite_start f x Hfin)
      as (body & E & c & rest & -> & Hc).
    rewrite E in H. clear E.
    destruct (is_negative x); simpl in H;
      destruct H as [H | [H | [H | []]]];
      vm_compute in H; inversion H; subst; discriminate.
  - destruct x as [s|[|]| |s m e]; simpl; try discriminate; intros _; auto.
Qed.

End NumberFacts.

(** * Facts about the runner *)

Section RunnerFacts.

Variable W : Type.

Implicit Types (test : Test.t W) (tests : list (Test.t W)).
Implicit Types (time : number) (times : list number) (w : W).

Lemma measures_length tests w times w' :
  measures tests w times w' -> List.length times = List.length tests.
Proof. induction 1; simpl; congruence. Qed.

Lemma run_test_normal test results w warm w1 time w2 :
  Test.fn test w = (Normal warm, w1) ->
  Test.fn test w1 = (Normal time, w2) ->
  run_test test results w
  = (Normal (results ++ [result_of (test, time)]), w2,
     test_events (test, time)).
Proof.
  intros H1 H2. unfold run_test, bind, call, console_log, ret.
  rewrite H1, H2. reflexivity.
Qed.

Lemma run_test_warm_up_throws test results w e w1 :
  Test.fn test w = (Throw e, w1) ->
  run_test test results w = (Throw e, w1, [Called (Test.name test)]).
Proof.
  intros H1. unfold run_test, bind, call. rewrite H1. reflexivity.
Qed.

Lemma run_test_measured_throws test results w warm w1 e w2 :
  Test.fn test w = (Normal warm, w1) ->
  Test.fn test w1 = (Throw e, w2) ->
  run_test test results w
  = (Throw e, w2, [Called (Test.name test); Called (Test.name test)]).
Proof.
  intros H1 H2. unfold run_test, bind, call. rewrite H1, H2. reflexivity.
Qed.

(** The loop over descriptors whose calls all return. *)
Lemma for_of_measures tests w times w' :
  measures tests w times w' ->
  forall results,
    for_of tests results w
    = (Normal (results ++ map result_of (combine tests times)), w',
       flat_map test_events (combine tests times)).
Proof.
  induction 1 as [w|test tests w warm w1 time w2 times w3 H1 H2 _ IH];
    intros results; simpl.
  - unfold ret. rewrite List.app_nil_r. reflexivity.
  - unfold bind. rewrite run_test_normal with (1 := H1) (2 := H2). rewrite IH.
    rewrite <- app_assoc. reflexivity.
Qed.

(** A loop that completes has measured every descriptor. *)
Lemma for_of_normal_inv tests :
  forall results w out w' tr,
    for_of tests results w = (Normal out, w', tr) ->
    exists times, measures tests w times w'.
Proof.
  induction tests as [|test tests IH]; intros results w out w' tr H.
  - simpl in H. unfold ret in H. inversion H; subst.
    exists []. constructor.
  - simpl in H. unfold bind at 1 in H.
    destruct (Test.fn test w) as [[warm|e] w1] eqn:H1.
    + destruct (Test.fn test w1) as [[time|e] w2] eqn:H2.
      * rewrite run_test_normal with (1 := H1) (2 := H2) in H.
        destruct (for_of tests _ w2) as [[[out'|e] w3] tr'] eqn:H3;
          inversion H; subst.
        destruct (IH _ _ _ _ _ H3) as [times Hm].
        exists (time :: times). econstructor; eassumption.
      * rewrite run_test_measured_throws with (1 := H1) (2 := H2) in H.
        discriminate.
    + rewrite run_test_warm_up_throws with (1 := H1) in H. discriminate.
Qed.

(** The loop stops at the first call that throws. *)
Lemma for_of_throws done test rest w times w1 e w2 evs :
  measures done w times w1 ->
  (forall results, run_test test results w1 = (Throw e, w2, evs)) ->
  forall results,
    for_of (done ++ test :: rest) results w
    = (Throw e, w2, flat_map test_events (combine done times) ++ evs).
Proof.
  intros Hm Hthrow. revert rest.
  induction Hm as [w|t tests w warm w1 time w2' times w3 H1 H2 _ IH];
    intros rest results; simpl.
  - unfold bind. rewrite Hthrow. reflexivity.
  - unfold bind at 1. rewrite run_test_normal with (1 := H1) (2 := H2).
    rewrite (IH Hthrow). reflexivity.
Qed.

(** *** The whole run *)

Lemma runBenchmarks_normal host tests asyncOp w times w1 asyncTime w2 :
  measures tests w times w1 ->
  asyncOp w1 = (Normal asyncTime, w2) ->
  runBenchmarks host tests asyncOp w
  = (Normal tt, w2, full_trace host tests times asyncTime).
Proof.
  intros Hm Ha. unfold runBenchmarks, bind, console_log, call.
  rewrite for_of_measures with (1 := Hm), Ha. reflexivity.
Qed.

Lemma runBenchmarks_loop_throws host tests asyncOp w e w1 tr :
  for_of tests [] w = (Throw e, w1, tr) ->
  runBenchmarks host tests asyncOp w = (Throw e, w1, header host ++ tr).
Proof.
  intros H. unfold runBenchmarks, bind, console_log. rewrite H.
  reflexivity.
Qed.

Lemma runBenchmarks_async_throws host tests asyncOp w times w1 e w2 :
  measures tests w times w1 ->
  asyncOp w1 = (Throw e, w2) ->
  runBenchmarks host tests asyncOp w
  = (Throw e, w2,
     header host ++ flat_map test_events (combine tests times)
       ++ announcement ++ [Called async_name]).
Proof.
  intros Hm Ha. unfold runBenchmarks, bind, console_log, call.
  rewrite for_of_measures with (1 := Hm), Ha. reflexivity.
Qed.

(** A run that completes has measured every descriptor and the
    asynchronous workload. *)
Lemma runBenchmarks_normal_inv host tests asyncOp w u w2 tr :
  runBenchmarks host tests asyncOp w = (Normal u, w2, tr) ->
  exists times w1 asyncTime,
    measures tests w times w1 /\ asyncOp w1 = (Normal asyncTime, w2).
Proof.
  intros H.
  destruct (for_of tests [] w) as [[[results|e] w1] tr1] eqn:Hloop.
  - destruct (for_of_normal_inv _ _ _ _ _ _ Hloop) as [times Hm].
    destruct (asyncOp w1) as [[asyncTime|e] w2'] eqn:Ha.
    + rewrite runBenchmarks_normal with (1 := Hm) (2 := Ha) in H.
      inversion H; subst. eauto.
    + rewrite runBenchmarks_async_throws with (1 := Hm) (2 := Ha) in H.
      discriminate.
  - rewrite runBenchmarks_loop_throws with (1 := Hloop) in H.
    discriminate.
Qed.

(** *** Projections of the trace *)

Lemma printed_app (a b : list event) :
  printed (a ++ b) = printed a ++ printed b.
Proof. apply flat_map_app. Qed.

Lemma called_app (a b : list event) :
  called (a ++ b) = called a ++ called b.
Proof. apply flat_map_app. Qed.

Lemma printed_test_events (ps : list (Test.t W * number)) :
  printed (flat_map test_events ps) = map row_of ps.
Proof.
  induction ps as [|p ps IH]; simpl; [reflexivity|].
  f_equal. exact IH.
Qed.

Lemma called_test_events (ps : list (Test.t W * number)) :
  called (flat_map test_events ps)
  = flat_map (fun p => [Test.name (fst p); Test.name (fst p)]) ps.
Proof.
  induction ps as [|p ps IH]; simpl; [reflexivity|].
  do 2 f_equal. exact IH.
Qed.

Lemma map_fst_combine tests times :
  List.length times = List.length tests ->
  map fst (combine tests times) = tests.
Proof.
  revert times. induction tests as [|t tests IH]; intros [|x times] H;
    simpl in *; try discriminate; [reflexivity|].
  f_equal. apply IH. congruence.
Qed.

Lemma map_snd_combine tests times :
  List.length times = List.length tests ->
  map snd (combine tests times) = times.
Proof.
  revert times. induction tests as [|t tests IH]; intros [|x times] H;
    simpl in *; try discriminate; [reflexivity|].
  f_equal. apply IH. congruence.
Qed.

End RunnerFacts.

(** * Facts about the workloads of index.js *)

Module ProgramFacts.
Import Workloads Schedule.

(** A synchronous workload returns the time between its two readings of
    the clock, and does nothing else. *)
Lemma timed_loop_run (w : World) :
  timed loop w = (Normal (elapsed 0 w), advance 2 w).
Proof. reflexivity. Qed.

Lemma measures_timed (ts : list (Test.t World)) :
  Forall (fun t => Test.fn t = timed loop) ts ->
  forall w,
    measures ts w (sync_times (List.length ts) w)
      (after (List.length ts) w).
Proof.
  induction 1 as [|t ts Ht _ IH]; intros w; simpl.
  - constructor.
  - apply measures_cons with (warm := elapsed 0 w) (w1 := advance 2 w)
                             (w2 := advance 4 w).
    + rewrite Ht. apply timed_loop_run.
    + rewrite Ht. apply timed_loop_run.
    + apply IH.
Qed.

Lemma tests_timed : Forall (fun t => Test.fn t = timed loop) tests.
Proof. repeat constructor. Qed.

(** The nine synchronous workloads never throw. *)
Lemma measures_tests (w : World) :
  measures tests w (sync_times 9 w) (after 9 w).
Proof. exact (measures_timed tests tests_timed w). Qed.

(** *** The asynchronous workload *)

Lemma length_indices (n : nat) (i : N) : List.length (indices n i) = n.
Proof.
  revert i. induction n as [|n IH]; intros i; simpl; [reflexivity|].
  f_equal. apply IH.
Qed.

Lemma array_from_sub_operation (n : nat) :
  forall i w,
    array_from n i sub_operation w
    = (map (fun i => Fulfilled (doubled i)) (indices n i),
       {| clock := clock w; reads := reads w;
          history := rev (map Initiated (indices n i)) ++ history w |}).
Proof.
  induction n as [|n IH]; intros i w.
  - destruct w. reflexivity.
  - cbn [array_from indices map rev]. unfold sub_operation at 1.
    rewrite IH. unfold record. cbn [clock reads history].
    rewrite <- app_assoc. reflexivity.
Qed.

Lemma promise_all_fulfilled {A B} (v : A -> B) (l : list A) :
  promise_all (map (fun a => Fulfilled (v a)) l) = Fulfilled (map v l).
Proof.
  induction l as [|a l IH]; simpl; [reflexivity|]. rewrite IH.
  reflexivity.
Qed.

(** The asynchronous workload never throws: it starts its 10000
    sub-operations, awaits them together, and returns the time between
    its two readings of the clock. *)
Lemma testAsyncOperations_run (w : World) :
  testAsyncOperations w
  = (Normal (elapsed 0 w),
     {| clock := clock w; reads := 2 + reads w;
        history := AwaitedAll 10000
                     :: rev (map Initiated (indices 10000 0)) ++ history w |}).
Proof.
  unfold testAsyncOperations, performance_now.
  rewrite array_from_sub_operation, promise_all_fulfilled.
  rewrite length_map, length_indices. reflexivity.
Qed.

(** The program always completes: this is its trace and the world it
    leaves. *)
Lemma program_run (host : Host) (w : World) :
  program host w
  = {| trace := full_trace host tests (sync_times 9 w)
                  (elapsed 0 (after 9 w));
       stderr := [];
       exitCode := 0;
       world :=
         {| clock := clock w; reads := 38 + reads w;
            history := AwaitedAll 10000
                         :: rev (map Initiated (indices 10000 0))
                         ++ history w |} |}.
Proof.
  unfold program, main.
  rewrite runBenchmarks_normal
    with (1 := measures_tests w) (2 := testAsyncOperations_run (after 9 w)).
  reflexivity.
Qed.

End ProgramFacts.

(** * Signs of quotients *)

Section Signs.






End Signs.

(** * Facts used by several claims *)

Section ListFacts.


End ListFacts.

Section CombineFacts.

Lemma nth_error_combine {A B} (l : list A) (l' : list B) (i : nat) (a : A) :
  List.length l' = List.length l ->
  nth_error l i = Some a ->
  exists b, nth_error l' i = Some b /\ nth_error (combine l l') i = Some (a, b).
Proof.
  revert l' i. induction l as [|x l IH]; intros [|y l'] [|i] Hlen Hi;
    simpl in *; try discriminate.
  - inversion Hi; subst. exists y. split; reflexivity.
  - apply IH; [congruence | exact Hi].
Qed.


End CombineFacts.

Section TotalFacts.

Variable W : Type.

Lemma total_of_results (ps : list (Test.t W * number)) (init : number) :
  fold_left (fun sum r => fadd sum (parseFloat (Result.time r)))
    (map result_of ps) init
  = fold_left (fun sum E => fadd sum (parseFloat (toFixed 2 E)))
      (map snd ps) init.
Proof.
  revert init. induction ps as [|p ps IH]; intros init; simpl;
    [reflexivity | apply IH].
Qed.

Lemma printed_total_full_trace (host : Host) (tests : list (Test.t W))
    (times : list number) (asyncTime : number) :
  printed_total (full_trace host tests times asyncTime)
  = total_line (map result_of (combine tests times)).
Proof.
  unfold printed_total, full_trace.
  rewrite !printed_app, !rev_app_distr. reflexivity.
Qed.

Lemma main_normal (host : Host) (tests : list (Test.t W))
    (asyncOp : workload W) (w : W) (times : list number) (w1 : W)
    (asyncTime : number) (w2 : W) :
  measures tests w times w1 ->
  asyncOp w1 = (Normal asyncTime, w2) ->
  main host tests asyncOp w
  = {| trace := full_trace host tests times asyncTime;
       stderr := []; exitCode := 0; world := w2 |}.
Proof.
  intros Hm Ha. unfold main.
  rewrite runBenchmarks_normal with (1 := Hm) (2 := Ha). reflexivity.
Qed.

End TotalFacts.

Section TextFacts.


(** Below [10^21], [toFixed(2)] prints the number scaled by 100 and
    rounded to the nearest integer, with a point before the last two
    digits. *)
Lemma toFixed_2_round (x : number) :
  below_1e21 x = true ->
  toFixed 2 x
  = (if is_negative x then str "-" else [])
      ++ fixed_digits 2 (round_half_up (abs_Q x * inject_Z 100)).
Proof.
  destruct x as [s|s| |s m e]; simpl; try discriminate; intros H.
  - reflexivity.
  - apply (toFixed_finite 2). destruct (at_least_1e21 m e);
      [discriminate | reflexivity].
Qed.



End TextFacts.

Section LayoutFacts.


End LayoutFacts.

Section FailureFacts.

Variable W : Type.

Lemma main_first_failure (host : Host) (tests : list (Test.t W))
    (asyncOp : workload W) (w : W) (done : list (Test.t W))
    (times : list number) (last : list event) (e : exn) (w2 : W) :
  first_failure tests asyncOp w done times last e w2 ->
  main host tests asyncOp w
  = {| trace := header host
                  ++ flat_map test_events (combine done times) ++ last;
       stderr := [e]; exitCode := 0; world := w2 |}
  /\ List.length times = List.length done.
Proof.
  intros H.
  destruct H as [done test rest asyncOp w times w1 e w2 Hm Hf
                |done test rest asyncOp w times w1 warm w1' e w2 Hm Hw Hf
                |tests asyncOp w times w1 e w2 Hm Hf];
    (split; [|exact (measures_length W _ _ _ _ Hm)]); unfold main.
  - rewrite runBenchmarks_loop_throws
      with (e := e) (w1 := w2)
           (tr := flat_map test_events (combine done times)
                    ++ [Called (Test.name test)]).
    + reflexivity.
    + apply for_of_throws with (w1 := w1); [exact Hm|].
      intros results. apply run_test_warm_up_throws. exact Hf.
  - rewrite runBenchmarks_loop_throws
      with (e := e) (w1 := w2)
           (tr := flat_map test_events (combine done times)
                    ++ [Called (Test.name test); Called (Test.name test)]).
    + reflexivity.
    + apply for_of_throws with (w1 := w1); [exact Hm|].
      intros results.
      apply run_test_measured_throws with (warm := warm) (w1 := w1');
        assumption.
  - rewrite runBenchmarks_async_throws with (1 := Hm) (2 := Hf).
    reflexivity.
Qed.

End FailureFacts.

(** In the faulty registry the first failure is the warm-up call of the
    third descriptor. *)
Lemma faulty_registry_fails :
  first_failure Examples.faulty_registry Workloads.testAsyncOperations
    Examples.steady (firstn 2 Workloads.tests)
    (Schedule.sync_times 2 Examples.steady)
    [Called (str "Faulty")] (str "Error: out of memory")
    (Schedule.after 2 Examples.steady).
Proof.
  apply fails_in_warm_up
    with (test := Test.make (str "Faulty") Examples.faulty Workloads.ITERATIONS)
         (w1 := Schedule.after 2 Examples.steady).
  - do 2 (eapply measures_cons; [reflexivity | reflexivity |]).
    apply measures_nil.
  - reflexivity.
Qed.

(** * Checks on concrete inputs *)

Section Checks.

Example toFixed_two_decimals :
  toFixed 2 (parseFloat (str "12.504")) = str "12.50".
Proof. vm_compute. reflexivity. Qed.

(** 1.005 is the binary64 number just below 1.005. *)
Example toFixed_of_1_005 :
  toFixed 2 (parseFloat (str "1.005")) = str "1.00".
Proof. vm_compute. reflexivity. Qed.

Example toFixed_rounds_half_up :
  toFixed 0 (parseFloat (str "2.5")) = str "3"
  /\ toFixed 0 (parseFloat (str "-2.5")) = str "-3"
  /\ toFixed 0 (parseFloat (str "0.5")) = str "1".
Proof. repeat split; vm_compute; reflexivity. Qed.

Example toFixed_keeps_the_sign_of_a_small_negative :
  toFixed 2 (parseFloat (str "-0.001")) = str "-0.00"
  /\ toFixed 2 (parseFloat (str "-0")) = str "0.00".
Proof. repeat split; vm_compute; reflexivity. Qed.

Example toFixed_from_1e21_on :
  toFixed 2 (parseFloat (str "1e21")) = str "1e+21"
  /\ toFixed 0 (of_Z (2 ^ 70)) = str "1.1805916207174113e+21"
  /\ toFixed 0 (of_Z (10 ^ 21 - 100000)) = str "999999999999999868928"
  /\ toFixed 2 (parseFloat (str "1e23")) = str "1e+23".
Proof. repeat split; vm_compute; reflexivity. Qed.

Example toFixed_not_a_finite_number :
  toFixed 0 (fdiv (of_Z 1000000) zero) = str "Infinity"
  /\ toFixed 0 (fdiv zero zero) = str "NaN".
Proof. repeat split; vm_compute; reflexivity. Qed.

Example parseFloat_reads_a_prefix :
  parseFloat (str "  12.50 ms") = fdiv (of_Z 25) (of_Z 2)
  /\ parseFloat (str "1e+21") = of_Z (10 ^ 21)
  /\ parseFloat (str "Infinity") = S754_infinity false
  /\ parseFloat (str "ms") = S754_nan.
Proof. repeat split; vm_compute; reflexivity. Qed.

Example padding :
  padEnd 6 (str "abc") = str "abc   "
  /\ padStart 6 (str "abc") = str "   abc"
  /\ padEnd 2 (str "abc") = str "abc"
  /\ padStart 2 (str "abc") = str "abc".
Proof. repeat split; reflexivity. Qed.

Example title_on_bun :
  title Examples.bun = str "  Performance Stress Test - Bun 1.1.0".
Proof. reflexivity. Qed.

(** The report of the program on Node.js, on a clock that advances by
    12.504 ms per reading. *)
Example report_on_the_steady_clock :
  printed (trace (Workloads.program Examples.node Examples.steady))
  = [rule;
     str "  Performance Stress Test - Node.js v20.11.0";
     rule;
     [];
     str "JSON Stringify/Parse           12.50 ms         79974408 ops/sec";
     str "String Manipulation            12.50 ms          7997441 ops/sec";
     str "Array Operations               12.50 ms           799744 ops/sec";
     str "Object Creation                12.50 ms         79974408 ops/sec";
     str "Math Operations                12.50 ms         79974408 ops/sec";
     str "RegExp Operations              12.50 ms          7997441 ops/sec";
     str "Function Calls                 12.50 ms         79974408 ops/sec";
     str "Buffer/TypedArray              12.50 ms           799744 ops/sec";
     str "Set/Map Operations             12.50 ms           799744 ops/sec";
     [];
     str "Running async operations test...";
     str "Async/Promise                  12.50 ms           799744 ops/sec";
     [];
     rule;
     str "  Total Runtime: 112.50 ms";
     rule].
Proof.
  rewrite ProgramFacts.program_run. cbn [trace]. vm_compute. reflexivity.
Qed.

End Checks.

(** * The claims *)



(** C2, as the code has it. The total printed in the footer is the sum,
    over the synchronous rows only, of the elapsed times as the rows show
    them: each measured time is rounded to two decimals by [toFixed(2)],
    parsed again and added, and the sum is printed with two decimals. The
    time of the asynchronous workload is no part of it. *)
Theorem total_is_sum_of_displayed_sync_times
    (W : Type) (host : Host) (tests : list (Test.t W))
    (asyncOp : workload W) (w : W) (times : list number) (w1 : W)
    (asyncTime : number) (w2 : W) :
  measures tests w times w1 ->
  asyncOp w1 = (Normal asyncTime, w2) ->
  printed_total (trace (main host tests asyncOp w))
  = str "  Total Runtime: " ++ toFixed 2 (sum_of_displayed times)
      ++ str " ms".
Proof.
  intros Hm Ha.
  rewrite main_normal with (1 := Hm) (2 := Ha). cbn [trace].
  rewrite printed_total_full_trace. unfold total_line, total.
  rewrite total_of_results,
    (map_snd_combine W tests times (measures_length W _ _ _ _ Hm)).
  reflexivity.
Qed.

(** C2, as the code has it, on the program and the steady clock. *)
Lemma total_is_sum_of_displayed_sync_times_witness :
  measures Workloads.tests Examples.steady
    (Schedule.sync_times 9 Examples.steady)
    (Schedule.after 9 Examples.steady)
  /\ Workloads.testAsyncOperations (Schedule.after 9 Examples.steady)
     = (Normal (Schedule.elapsed 0 (Schedule.after 9 Examples.steady)),
        world (Workloads.program Examples.node Examples.steady))
  /\ printed_total
       (trace (main Examples.node Workloads.tests
                 Workloads.testAsyncOperations Examples.steady))
     = str "  Total Runtime: "
         ++ toFixed 2
              (sum_of_displayed (Schedule.sync_times 9 Examples.steady))
         ++ str " ms".
Proof.
  assert (Ha : Workloads.testAsyncOperations
                 (Schedule.after 9 Examples.steady)
               = (Normal (Schedule.elapsed 0
                            (Schedule.after 9 Examples.steady)),
                  world (Workloads.program Examples.node Examples.steady))).
  { rewrite ProgramFacts.program_run.
    exact (ProgramFacts.testAsyncOperations_run _). }
  split; [exact (ProgramFacts.measures_tests Examples.steady)|].
  split; [exact Ha|].
  exact (total_is_sum_of_displayed_sync_times Workloads.World Examples.node
           _ _ _ _ _ _ _ (ProgramFacts.measures_tests Examples.steady) Ha).
Defined.

(** C2, as the claim states it, fails: on a clock that advances by
    12.504 ms per reading every workload measures 12.504 ms and shows
    12.50; the program prints the total 112.50, and the sum of the nine
    measured times is 112.54 to two decimals. The two sums differ as
    numbers, too. *)
Lemma printed_total_differs_from_sum_of_measured :
  measures Workloads.tests Examples.steady
    (Schedule.sync_times 9 Examples.steady)
    (Schedule.after 9 Examples.steady)
  /\ printed_total (trace (Workloads.program Examples.node Examples.steady))
     = str "  Total Runtime: 112.50 ms"
  /\ total_line_of_measured (Schedule.sync_times 9 Examples.steady)
     = str "  Total Runtime: 112.54 ms"
  /\ printed_total (trace (Workloads.program Examples.node Examples.steady))
     <> total_line_of_measured (Schedule.sync_times 9 Examples.steady)
  /\ SFeqb (sum_of_displayed (Schedule.sync_times 9 Examples.steady))
       (sum_of_measured (Schedule.sync_times 9 Examples.steady))
     = false.
Proof.
  assert (H1 : printed_total
                 (trace (Workloads.program Examples.node Examples.steady))
               = str "  Total Runtime: 112.50 ms").
  { rewrite ProgramFacts.program_run. cbn [trace].
    rewrite printed_total_full_trace. vm_compute. reflexivity. }
  assert (H2 : total_line_of_measured
                 (Schedule.sync_times 9 Examples.steady)
               = str "  Total Runtime: 112.54 ms").
  { vm_compute. reflexivity. }
  split; [exact (ProgramFacts.measures_tests Examples.steady)|].
  split; [exact H1|]. split; [exact H2|]. split.
  - rewrite H1, H2. vm_compute. discriminate.
  - vm_compute. reflexivity.
Qed.

(** C3, as the code has it. The runner has no registration step and rejects
    no descriptor: whatever the declared counts, zero and negative ones
    too, every descriptor whose calls return is called twice and gets its
    row. The throughput of a row is one of the texts [NaN], [Infinity] and
    [-Infinity] exactly when the quotient [L / (E / 1000)] is not a finite
    number. *)
Theorem every_descriptor_runs_whatever_its_count
    (W : Type) (tests : list (Test.t W)) (w : W) (times : list number)
    (w1 : W) :
  measures tests w times w1 ->
  exists results tr,
    for_of tests [] w = (Normal results, w1, tr)
    /\ called tr = flat_map (fun test => [Test.name test; Test.name test]) tests
    /\ printed tr
       = map (fun p =>
                row (Test.name (fst p)) (toFixed 2 (snd p))
                  (toFixed 0
                     (fdiv (Test.iterations (fst p))
                        (fdiv (snd p) (of_Z 1000)))))
           (combine tests times)
    /\ List.length (printed tr) = List.length tests
    /\ Forall
         (fun p =>
            let q :=
              fdiv (Test.iterations (fst p)) (fdiv (snd p) (of_Z 1000)) in
            In (toFixed 0 q) [str "NaN"; str "Infinity"; str "-Infinity"]
            <-> is_finite q = false)
         (combine tests times).
Proof.
  intros Hm.
  pose proof (measures_length W _ _ _ _ Hm) as Hlen.
  exists (map result_of (combine tests times)),
         (flat_map test_events (combine tests times)).
  split; [exact (for_of_measures W tests w times w1 Hm [])|].
  split; [|split; [|split]].
  - rewrite called_test_events.
    rewrite <- (map_fst_combine W tests times Hlen) at 2.
    rewrite flat_map_concat_map, (flat_map_concat_map _ (map fst _)), map_map.
    reflexivity.
  - apply printed_test_events.
  - rewrite printed_test_events, length_map, length_combine, Hlen.
    apply Nat.min_id.
  - apply Forall_forall. intros p _. apply toFixed_not_finite.
Qed.

(** C3, as the code has it, on a registry whose only descriptor declares
    the count 0, on a clock that does not advance. *)
Lemma every_descriptor_runs_whatever_its_count_witness :
  measures Examples.zero_count_registry Examples.frozen
    [zero] (Schedule.advance 4 Examples.frozen)
  /\ exists results tr,
       for_of Examples.zero_count_registry [] Examples.frozen
       = (Normal results, Schedule.advance 4 Examples.frozen, tr)
       /\ called tr
          = flat_map (fun test => [Test.name test; Test.name test])
              Examples.zero_count_registry
       /\ printed tr
          = map (fun p =>
                   row (Test.name (fst p)) (toFixed 2 (snd p))
                     (toFixed 0
                        (fdiv (Test.iterations (fst p))
                           (fdiv (snd p) (of_Z 1000)))))
              (combine Examples.zero_count_registry [zero])
       /\ List.length (printed tr) = List.length Examples.zero_count_registry
       /\ Forall
            (fun p =>
               let q :=
                 fdiv (Test.iterations (fst p)) (fdiv (snd p) (of_Z 1000)) in
               In (toFixed 0 q) [str "NaN"; str "Infinity"; str "-Infinity"]
               <-> is_finite q = false)
            (combine Examples.zero_count_registry [zero]).
Proof.
  assert (H : measures Examples.zero_count_registry Examples.frozen
                [zero] (Schedule.advance 4 Examples.frozen)).
  { eapply measures_cons; [reflexivity | reflexivity | apply measures_nil]. }
  split; [exact H|].
  exact (every_descriptor_runs_whatever_its_count _ _ _ _ _ H).
Defined.

(** C3, as the claim states it, fails. A descriptor that declares the
    count 0 is not rejected: on a clock that does not advance, the runner
    calls it twice and prints a row whose throughput is [NaN]. And the
    program itself, on that clock, prints [Infinity] in every row. *)
Lemma zero_count_runs_and_prints_NaN :
  map Test.iterations Examples.zero_count_registry = [of_Z 0]
  /\ firstn 3
       (skipn 4
          (trace (main Examples.node Examples.zero_count_registry
                    Workloads.testAsyncOperations Examples.frozen)))
     = [Called (str "noop"); Called (str "noop");
        Printed
          (str "noop                            0.00 ms              NaN ops/sec")]
  /\ nth 4 (printed (trace (Workloads.program Examples.node Examples.frozen)))
       []
     = str "JSON Stringify/Parse            0.00 ms         Infinity ops/sec".
Proof.
  split; [reflexivity|]. split.
  - rewrite main_normal
      with (times := [zero]) (w1 := Schedule.advance 4 Examples.frozen)
           (asyncTime := Schedule.elapsed 0
                           (Schedule.advance 4 Examples.frozen))
           (w2 := snd (Workloads.testAsyncOperations
                         (Schedule.advance 4 Examples.frozen))).
    + cbn [trace]. vm_compute. reflexivity.
    + eapply measures_cons; [reflexivity | reflexivity | apply measures_nil].
    + rewrite ProgramFacts.testAsyncOperations_run. reflexivity.
  - rewrite ProgramFacts.program_run. cbn [trace]. vm_compute. reflexivity.
Qed.

(** C4, as the code has it. When a call of a workload throws (a warm-up
    call, a measured call, or the call of the asynchronous workload, whose
    awaited promise was rejected), the run ends there: the trace is the
    header, the calls and rows of the descriptors before the failure, and
    the calls made to the workload that failed, with no row for it; no
    workload is called afterwards, and the world is the one the failing
    call left. The thrown value is written to the error stream. The
    process then ends with status 0: the rejection was handled, and nothing
    sets another status. *)
Theorem failure_aborts_the_run
    (W : Type) (host : Host) (tests : list (Test.t W))
    (asyncOp : workload W) (w : W) (done : list (Test.t W))
    (times : list number) (last : list event) (e : exn) (w2 : W) :
  first_failure tests asyncOp w done times last e w2 ->
  main host tests asyncOp w
  = {| trace :=
         [Printed (repeat box_double_horizontal 60);
          Printed (str "  Performance Stress Test - " ++ runtime host
                     ++ str " " ++ version host);
          Printed (repeat box_double_horizontal 60);
          Printed []]
           ++ flat_map
                (fun p =>
                   [Called (Test.name (fst p)); Called (Test.name (fst p));
                    Printed
                      (row (Test.name (fst p)) (toFixed 2 (snd p))
                         (toFixed 0
                            (fdiv (Test.iterations (fst p))
                               (fdiv (snd p) (of_Z 1000)))))])
                (combine done times)
           ++ last;
       stderr := [e];
       exitCode := 0;
       world := w2 |}
  /\ called (trace (main host tests asyncOp w))
     = flat_map (fun test => [Test.name test; Test.name test]) done
         ++ called last
  /\ (exists n, called last = [n] \/ called last = [n; n])
  /\ (printed last = []
      \/ printed last = [[]; str "Running async operations test..."]).
Proof.
  intros H.
  destruct (main_first_failure W host _ _ _ _ _ _ _ _ H) as [Hmain Hlen].
  split; [exact Hmain|]. split; [|split].
  - rewrite Hmain. cbn [trace].
    rewrite !called_app, called_test_events.
    change (called (header host)) with (@nil jsstring). simpl app.
    f_equal.
    rewrite <- (map_fst_combine W done times Hlen) at 2.
    rewrite flat_map_concat_map, (flat_map_concat_map _ (map fst _)), map_map.
    reflexivity.
  - destruct H; eexists; simpl; auto.
  - destruct H; simpl; auto.
Qed.

(** C4, as the code has it, on a registry whose third workload throws in
    its warm-up call: five calls were made, the thrown value is on the
    error stream, and the status is 0. *)
Lemma failure_aborts_the_run_witness :
  first_failure Examples.faulty_registry Workloads.testAsyncOperations
    Examples.steady (firstn 2 Workloads.tests)
    (Schedule.sync_times 2 Examples.steady)
    [Called (str "Faulty")] (str "Error: out of memory")
    (Schedule.after 2 Examples.steady)
  /\ stderr (main Examples.node Examples.faulty_registry
               Workloads.testAsyncOperations Examples.steady)
     = [str "Error: out of memory"]
  /\ exitCode (main Examples.node Examples.faulty_registry
                 Workloads.testAsyncOperations Examples.steady)
     = 0%Z
  /\ called (trace (main Examples.node Examples.faulty_registry
                      Workloads.testAsyncOperations Examples.steady))
     = [str "JSON Stringify/Parse"; str "JSON Stringify/Parse";
        str "String Manipulation"; str "String Manipulation";
        str "Faulty"].
Proof.
  split; [exact faulty_registry_fails|].
  destruct (failure_aborts_the_run Workloads.World Examples.node _ _ _ _ _ _
              _ _ faulty_registry_fails) as (Hmain & Hcalled & _).
  rewrite Hcalled, Hmain. repeat split; reflexivity.
Defined.

(** C4, as the claim states it, fails: with a workload that throws, the
    thrown value is written to the error stream and the status of the
    process is 0, not a non-zero one. *)
Lemma failed_run_exits_with_status_zero :
  stderr (main Examples.node Examples.faulty_registry
            Workloads.testAsyncOperations Examples.steady)
  = [str "Error: out of memory"]
  /\ exitCode (main Examples.node Examples.faulty_registry
                 Workloads.testAsyncOperations Examples.steady)
     = 0%Z
  /\ ~ (exitCode (main Examples.node Examples.faulty_registry
                    Workloads.testAsyncOperations Examples.steady)
        <> 0%Z).
Proof.
  destruct (main_first_failure Workloads.World Examples.node _ _ _ _ _ _ _ _
              faulty_registry_fails) as [H _].
  rewrite H. cbn [stderr exitCode].
  split; [reflexivity|]. split; [reflexivity|].
  intros Hne. apply Hne. reflexivity.
Qed.

(** C5. For every registered descriptor the runner calls its operation
    exactly twice, one call right after the other, and then prints its row:
    the trace of a run is some printing, then for each descriptor in turn
    [Called; Called; Printed row], then one call of the asynchronous
    workload among more printing. By [measures], the time [E] in a row is
    the value the second of the two calls returned; the value of the first
    call appears nowhere. *)
Theorem two_calls_per_descriptor
    (W : Type) (host : Host) (tests : list (Test.t W))
    (asyncOp : workload W) (w : W) (times : list number) (w1 : W)
    (asyncTime : number) (w2 : W) :
  measures tests w times w1 ->
  asyncOp w1 = (Normal asyncTime, w2) ->
  exists before rest tr,
    runBenchmarks host tests asyncOp w = (Normal tt, w2, tr)
    /\ tr = before
            ++ flat_map
                 (fun p =>
                    [Called (Test.name (fst p)); Called (Test.name (fst p));
                     Printed
                       (row (Test.name (fst p)) (toFixed 2 (snd p))
                          (toFixed 0
                             (fdiv (Test.iterations (fst p))
                                (fdiv (snd p) (of_Z 1000)))))])
                 (combine tests times)
            ++ rest
    /\ called before = []
    /\ called rest = [async_name]
    /\ called tr
       = flat_map (fun test => [Test.name test; Test.name test]) tests
           ++ [async_name].
Proof.
  intros Hm Ha.
  exists (header host),
         (announcement ++ async_events asyncTime
            ++ footer (map result_of (combine tests times))),
         (full_trace host tests times asyncTime).
  split; [|split; [reflexivity | split; [reflexivity | split; [reflexivity|]]]].
  - exact (runBenchmarks_normal W host tests asyncOp w times w1 asyncTime w2
             Hm Ha).
  - unfold full_trace. rewrite !called_app, called_test_events.
    change (called (header host)) with (@nil jsstring).
    change (called announcement) with (@nil jsstring).
    change (called (async_events asyncTime)) with [async_name].
    change (called (footer (map result_of (combine tests times))))
      with (@nil jsstring).
    simpl app. f_equal.
    rewrite <- (map_fst_combine W tests times (measures_length W _ _ _ _ Hm))
      at 2.
    rewrite flat_map_concat_map, (flat_map_concat_map _ (map fst _)), map_map.
    reflexivity.
Qed.

(** C5 on the program and the steady clock. *)
Lemma two_calls_per_descriptor_witness :
  measures Workloads.tests Examples.steady
    (Schedule.sync_times 9 Examples.steady)
    (Schedule.after 9 Examples.steady)
  /\ Workloads.testAsyncOperations (Schedule.after 9 Examples.steady)
     = (Normal (Schedule.elapsed 0 (Schedule.after 9 Examples.steady)),
        world (Workloads.program Examples.node Examples.steady))
  /\ exists before rest tr,
       runBenchmarks Examples.node Workloads.tests
         Workloads.testAsyncOperations Examples.steady
       = (Normal tt, world (Workloads.program Examples.node Examples.steady),
          tr)
       /\ tr = before
               ++ flat_map
                    (fun p =>
                       [Called (Test.name (fst p));
                        Called (Test.name (fst p));
                        Printed
                          (row (Test.name (fst p)) (toFixed 2 (snd p))
                             (toFixed 0
                                (fdiv (Test.iterations (fst p))
                                   (fdiv (snd p) (of_Z 1000)))))])
                    (combine Workloads.tests
                       (Schedule.sync_times 9 Examples.steady))
               ++ rest
       /\ called before = []
       /\ called rest = [async_name]
       /\ called tr
          = flat_map (fun test => [Test.name test; Test.name test])
              Workloads.tests
              ++ [async_name].
Proof.
  assert (Ha : Workloads.testAsyncOperations
                 (Schedule.after 9 Examples.steady)
               = (Normal (Schedule.elapsed 0
                            (Schedule.after 9 Examples.steady)),
                  world (Workloads.program Examples.node Examples.steady))).
  { rewrite ProgramFacts.program_run.
    exact (ProgramFacts.testAsyncOperations_run _). }
  split; [exact (ProgramFacts.measures_tests Examples.steady)|].
  split; [exact Ha|].
  exact (two_calls_per_descriptor Workloads.World Examples.node _ _ _ _ _ _ _
           (ProgramFacts.measures_tests Examples.steady) Ha).
Defined.

(** C6. The report of a run that completes is the four header lines, one
    row per registered descriptor, the two lines that announce the
    asynchronous test, its row, and the four footer lines. The rows of the
    descriptors and the asynchronous row are [length tests + 1] rows; the
    [i]-th row is the row of the [i]-th descriptor of the registry; the
    asynchronous row comes after all of them. *)
Theorem report_rows_in_registration_order
    (W : Type) (host : Host) (tests : list (Test.t W))
    (asyncOp : workload W) (w : W) (u : unit) (w2 : W) (tr : list event) :
  runBenchmarks host tests asyncOp w = (Normal u, w2, tr) ->
  exists times asyncTime sync_rows last_row total_text,
    printed tr
    = [repeat box_double_horizontal 60;
       str "  Performance Stress Test - " ++ runtime host ++ str " "
         ++ version host;
       repeat box_double_horizontal 60;
       []]
        ++ sync_rows
        ++ [[]; str "Running async operations test..."]
        ++ [last_row]
        ++ [[]; repeat box_double_horizontal 60; total_text;
            repeat box_double_horizontal 60]
    /\ List.length (sync_rows ++ [last_row]) = List.length tests + 1
    /\ List.length sync_rows = List.length tests
    /\ (forall i test,
          nth_error tests i = Some test ->
          exists time,
            nth_error times i = Some time
            /\ nth_error sync_rows i
               = Some (row (Test.name test) (toFixed 2 time)
                         (toFixed 0
                            (fdiv (Test.iterations test)
                               (fdiv time (of_Z 1000))))))
    /\ last_row
       = row (str "Async/Promise") (toFixed 2 asyncTime)
           (toFixed 0 (fdiv (of_Z 10000) (fdiv asyncTime (of_Z 1000)))).
Proof.
  intros H.
  destruct (runBenchmarks_normal_inv W host tests asyncOp w u w2 tr H)
    as (times & w1 & asyncTime & Hm & Ha).
  rewrite runBenchmarks_normal with (1 := Hm) (2 := Ha) in H.
  inversion H; subst tr. clear H.
  pose proof (measures_length W _ _ _ _ Hm) as Hlen.
  exists times, asyncTime, (map row_of (combine tests times)),
         (async_row asyncTime),
         (total_line (map result_of (combine tests times))).
  split; [|split; [|split; [|split]]].
  - unfold full_trace. rewrite !printed_app, printed_test_events.
    reflexivity.
  - rewrite length_app, length_map, length_combine, Hlen, Nat.min_id.
    reflexivity.
  - rewrite length_map, length_combine, Hlen, Nat.min_id. reflexivity.
  - intros i test Hi.
    destruct (nth_error_combine tests times i test Hlen Hi)
      as (time & Ht & Hc).
    exists time. split; [exact Ht|].
    rewrite nth_error_map, Hc. reflexivity.
  - reflexivity.
Qed.

(** C6 on the program and the steady clock. *)
Lemma report_rows_in_registration_order_witness :
  runBenchmarks Examples.node Workloads.tests Workloads.testAsyncOperations
    Examples.steady
  = (Normal tt, world (Workloads.program Examples.node Examples.steady),
     trace (Workloads.program Examples.node Examples.steady))
  /\ exists times asyncTime sync_rows last_row total_text,
       printed (trace (Workloads.program Examples.node Examples.steady))
       = [repeat box_double_horizontal 60;
          str "  Performance Stress Test - " ++ runtime Examples.node
            ++ str " " ++ version Examples.node;
          repeat box_double_horizontal 60;
          []]
           ++ sync_rows
           ++ [[]; str "Running async operations test..."]
           ++ [last_row]
           ++ [[]; repeat box_double_horizontal 60; total_text;
               repeat box_double_horizontal 60]
       /\ List.length (sync_rows ++ [last_row])
          = List.length Workloads.tests + 1
       /\ List.length sync_rows = List.length Workloads.tests
       /\ (forall i test,
             nth_error Workloads.tests i = Some test ->
             exists time,
               nth_error times i = Some time
               /\ nth_error sync_rows i
                  = Some (row (Test.name test) (toFixed 2 time)
                            (toFixed 0
                               (fdiv (Test.iterations test)
                                  (fdiv time (of_Z 1000))))))
       /\ last_row
          = row (str "Async/Promise") (toFixed 2 asyncTime)
              (toFixed 0 (fdiv (of_Z 10000) (fdiv asyncTime (of_Z 1000)))).
Proof.
  assert (H : runBenchmarks Examples.node Workloads.tests
                Workloads.testAsyncOperations Examples.steady
              = (Normal tt,
                 world (Workloads.program Examples.node Examples.steady),
                 trace (Workloads.program Examples.node Examples.steady))).
  { rewrite ProgramFacts.program_run.
    exact (runBenchmarks_normal _ _ _ _ _ _ _ _ _
             (ProgramFacts.measures_tests Examples.steady)
             (ProgramFacts.testAsyncOperations_run _)). }
  split; [exact H|].
  exact (report_rows_in_registration_order _ _ _ _ _ _ _ _ H).
Defined.





(** C9. Two runs that differ only in the host (the global [Bun] and the
    version strings) print the same lines except the second one, the title,
    which names the runtime and its version; they make the same calls, end
    in the same way and leave the same world. So every row, every time and
    throughput in it, and the total are the same. *)
Theorem label_is_cosmetic
    (W : Type) (host1 host2 : Host) (tests : list (Test.t W))
    (asyncOp : workload W) (w : W) :
  exists rest,
    trace (main host1 tests asyncOp w)
    = Printed (repeat box_double_horizontal 60)
        :: Printed (str "  Performance Stress Test - " ++ runtime host1
                      ++ str " " ++ version host1)
        :: rest
    /\ trace (main host2 tests asyncOp w)
       = Printed (repeat box_double_horizontal 60)
           :: Printed (str "  Performance Stress Test - " ++ runtime host2
                         ++ str " " ++ version host2)
           :: rest
    /\ stderr (main host1 tests asyncOp w) = stderr (main host2 tests asyncOp w)
    /\ exitCode (main host1 tests asyncOp w)
       = exitCode (main host2 tests asyncOp w)
    /\ world (main host1 tests asyncOp w) = world (main host2 tests asyncOp w).
Proof.
  unfold main, runBenchmarks, bind, console_log, call.
  destruct (for_of tests [] w) as [[[results|e] w1] tr1].
  - destruct (asyncOp w1) as [[asyncTime|e] w2];
      eexists; repeat split; reflexivity.
  - eexists; repeat split; reflexivity.
Qed.



(** * Further properties of the code *)

(** ** Checks of the built-in operations *)

Section ChecksOfTheBuiltIns.
Import JsBuiltins Bodies.

Example remainder_has_the_sign_of_the_dividend :
  frem (parseFloat (str "5.5")) (of_Z 2) = parseFloat (str "1.5")
  /\ frem (of_Z (-5)) (of_Z 3) = of_Z (-2)
  /\ frem (of_Z 5) (of_Z (-3)) = of_Z 2
  /\ frem (of_Z (-4)) (of_Z 2) = S754_zero true
  /\ frem (parseFloat (str "0.3")) (parseFloat (str "0.1"))
     = parseFloat (str "0.09999999999999998")
  /\ frem (of_Z 1) zero = S754_nan.
Proof. repeat split; reflexivity. Qed.

Example stores_wrap :
  map to_uint8
    [parseFloat (str "257.9"); of_Z (-1); parseFloat (str "-1.5");
     parseFloat (str "1e300"); of_Z 255; parseFloat (str "-0.9");
     S754_nan; S754_infinity false]
  = [1; 255; 255; 0; 255; 0; 0; 0]%N.
Proof. reflexivity. Qed.

Example store_out_of_range :
  typed_store [1; 2; 3]%N 3 (of_Z 7) = [1; 2; 3]%N
  /\ typed_store [1; 2; 3]%N 2 (of_Z 263) = [1; 2; 7]%N.
Proof. split; reflexivity. Qed.

Example split_examples :
  split (str ", ") (str "a, b,, c, ") = [str "a"; str "b,"; str "c"; []]
  /\ split (str "aa") (str "aaaaa") = [[]; []; str "a"]
  /\ split [] (str "abc") = [str "a"; str "b"; str "c"]
  /\ split (str " ") [] = [[]]
  /\ join (str "-") [str "a"; []; str "b"] = str "a--b".
Proof. repeat split; reflexivity. Qed.

Example keys_of_a_set :
  set_add (S754_zero true) [] = [zero]
  /\ set_add S754_nan [S754_nan] = [S754_nan]
  /\ set_has [zero] (S754_zero true) = true
  /\ map_get (map_set (of_Z 1) (of_Z 3) [(of_Z 1, of_Z 2)]) (of_Z 1)
     = Some (of_Z 3)
  /\ map_get [(of_Z 1, of_Z 2)] (of_Z 5) = None.
Proof. repeat split; reflexivity. Qed.

Example sum_of_the_properties : object_sum = of_Z 15.
Proof. reflexivity. Qed.

Example text_of_the_string_workload :
  List.length string_result = 101
  /\ split (str " ") string_result
     = [repeat (str "Hello") 10; repeat (str "World") 10].
Proof. split; reflexivity. Qed.

End ChecksOfTheBuiltIns.

(** ** Integers in binary64 *)

Section IntegersInBinary64.
Import JsBuiltins Bodies.
Local Open Scope Z_scope.

Section ExactIntegers.

Lemma digits2_pos_size (p : positive) : digits2_pos p = Pos.size p.
Proof. induction p; simpl; congruence. Qed.

Lemma Zdigits2_log2 (p : positive) :
  Zdigits2 (Z.pos p) = Z.log2 (Z.pos p) + 1.
Proof.
  unfold Zdigits2. rewrite digits2_pos_size.
  destruct p; simpl; rewrite ?Pos2Z.inj_succ; lia.
Qed.

Lemma shr_1_double (q : positive) :
  shr_1 {| shr_m := 2 * Z.pos q; shr_r := false; shr_s := false |}
  = {| shr_m := Z.pos q; shr_r := false; shr_s := false |}.
Proof. reflexivity. Qed.

Lemma pow2_xO (p : positive) : 2 ^ Z.pos p~0 = 2 ^ Z.pos p * 2 ^ Z.pos p.
Proof.
  replace (Z.pos p~0) with (Z.pos p + Z.pos p) by lia.
  apply Z.pow_add_r; lia.
Qed.

Lemma pow2_xI (p : positive) :
  2 ^ Z.pos p~1 = 2 * (2 ^ Z.pos p * 2 ^ Z.pos p).
Proof.
  replace (Z.pos p~1) with (1 + (Z.pos p + Z.pos p)) by lia.
  rewrite Z.pow_add_r, Z.pow_1_r, Z.pow_add_r by lia. reflexivity.
Qed.

Lemma pos_pow2 (q p : positive) : Z.pos (q * 2 ^ p) = Z.pos q * 2 ^ Z.pos p.
Proof. rewrite Pos2Z.inj_mul, Pos2Z.inj_pow. reflexivity. Qed.

Lemma iter_pos_shr_1 (p : positive) :
  forall q : positive,
    iter_pos shr_1 p
      {| shr_m := Z.pos q * 2 ^ Z.pos p; shr_r := false; shr_s := false |}
    = {| shr_m := Z.pos q; shr_r := false; shr_s := false |}.
Proof.
  induction p as [p IH|p IH|]; intros q.
  - cbn [iter_pos]. rewrite pow2_xI.
    replace (Z.pos q * (2 * (2 ^ Z.pos p * 2 ^ Z.pos p)))
      with (2 * Z.pos (q * 2 ^ p * 2 ^ p))
      by (rewrite !pos_pow2; ring).
    rewrite shr_1_double, (pos_pow2 (q * 2 ^ p)), IH, pos_pow2. apply IH.
  - cbn [iter_pos]. rewrite pow2_xO.
    replace (Z.pos q * (2 ^ Z.pos p * 2 ^ Z.pos p))
      with (Z.pos (q * 2 ^ p) * 2 ^ Z.pos p)
      by (rewrite !pos_pow2; ring).
    rewrite IH, pos_pow2. apply IH.
  - cbn [iter_pos]. rewrite Z.pow_1_r, Z.mul_comm. apply shr_1_double.
Qed.

Lemma fexp_normal (x : Z) : -1021 <= x -> fexp prec emax x = x - 53.
Proof. intros H. unfold fexp, emin, prec, emax. lia. Qed.

Lemma log2_small (z : Z) : 0 < z < 2 ^ 53 -> 0 <= Z.log2 z <= 52.
Proof.
  intros [H0 H1]. split; [apply Z.log2_nonneg|].
  apply Z.log2_lt_pow2 in H1; lia.
Qed.

Lemma shr_fexp_53 (q : positive) (e : Z) :
  Z.log2 (Z.pos q) = 52 -> -1074 <= e ->
  shr_fexp prec emax (Z.pos q) e loc_Exact
  = ({| shr_m := Z.pos q; shr_r := false; shr_s := false |}, e).
Proof.
  intros Hq He. unfold shr_fexp.
  rewrite Zdigits2_log2, Hq, fexp_normal by lia.
  replace (52 + 1 + e - 53 - e) with 0 by lia. reflexivity.
Qed.

Lemma binary_round_aux_exact (s : bool) (z K : Z) :
  0 < z < 2 ^ 53 -> 0 <= K -> 52 <= Z.log2 z + K ->
  binary_round_aux prec emax s (z * 2 ^ K) (- K) loc_Exact = canon s z.
Proof.
  intros Hz HK Hd.
  pose proof (log2_small z Hz) as Hl.
  assert (Hpow : 0 < 2 ^ K) by (apply Z.pow_pos_nonneg; lia).
  assert (HM : 0 < z * 2 ^ K) by nia.
  set (n := Z.log2 z + K - 52).
  assert (Hn0 : 0 <= n) by (unfold n; lia).
  assert (Hq : 0 < z * 2 ^ (52 - Z.log2 z)).
  { assert (0 < 2 ^ (52 - Z.log2 z)) by (apply Z.pow_pos_nonneg; lia). nia. }
  assert (Hlq : Z.log2 (z * 2 ^ (52 - Z.log2 z)) = 52).
  { rewrite Z.log2_mul_pow2 by lia. lia. }
  assert (Hsplit : z * 2 ^ K = z * 2 ^ (52 - Z.log2 z) * 2 ^ n).
  { rewrite <- Z.mul_assoc, <- Z.pow_add_r by (unfold n; lia).
    f_equal. f_equal. unfold n. lia. }
  assert (Hfirst :
    shr_fexp prec emax (z * 2 ^ K) (- K) loc_Exact
    = ({| shr_m := z * 2 ^ (52 - Z.log2 z); shr_r := false; shr_s := false |},
       Z.log2 z - 52)).
  { unfold shr_fexp.
    destruct (z * 2 ^ K) as [|M|M] eqn:EM; try lia.
    rewrite Zdigits2_log2, <- EM, Z.log2_mul_pow2, fexp_normal by lia.
    replace (K + Z.log2 z + 1 + - K - 53 - - K) with n by (unfold n; lia).
    cbn [shr_record_of_loc]. rewrite EM.
    assert (Hn : - K + n = Z.log2 z - 52) by (unfold n; lia).
    clearbody n.
    destruct n as [|p|p]; try lia.
    - cbn [shr]. rewrite Z.pow_0_r, Z.mul_1_r in Hsplit.
      rewrite <- Hsplit. f_equal. lia.
    - cbn [shr]. rewrite Hsplit, Hn.
      destruct (z * 2 ^ (52 - Z.log2 z)) as [|q|q] eqn:Eq; try lia.
      rewrite iter_pos_shr_1. reflexivity. }
  unfold binary_round_aux. rewrite Hfirst.
  cbn [shr_m loc_of_shr_record round_nearest_even].
  destruct (z * 2 ^ (52 - Z.log2 z)) as [|q|q] eqn:Eq; try lia.
  rewrite shr_fexp_53 by (assumption || lia).
  cbn [shr_m].
  replace (Z.leb (Z.log2 z - 52) (emax - prec)) with true
    by (symmetry; apply Z.leb_le; unfold emax, prec; lia).
  unfold canon. rewrite Eq. reflexivity.
Qed.

Lemma pos_iter_xO (m d : positive) :
  Z.pos (Pos.iter xO m d) = Z.pos m * 2 ^ Z.pos d.
Proof.
  change (Pos.iter xO m d) with (shift_pos d m).
  rewrite shift_pos_correct. apply Z.mul_comm.
Qed.

Lemma binary_round_exact (s : bool) (z K : Z) :
  0 < z < 2 ^ 53 -> 0 <= K ->
  binary_round prec emax s (Z.to_pos (z * 2 ^ K)) (- K) = canon s z.
Proof.
  intros Hz HK.
  pose proof (log2_small z Hz) as Hl.
  assert (Hpow : 0 < 2 ^ K) by (apply Z.pow_pos_nonneg; lia).
  assert (HM : 0 < z * 2 ^ K) by nia.
  unfold binary_round.
  change (Z.pos (digits2_pos (Z.to_pos (z * 2 ^ K))))
    with (Zdigits2 (Z.pos (Z.to_pos (z * 2 ^ K)))).
  rewrite Zdigits2_log2, Z2Pos.id, Z.log2_mul_pow2, fexp_normal by lia.
  unfold shl_align.
  replace (K + Z.log2 z + 1 + - K - 53 - - K) with (Z.log2 z + K - 52) by lia.
  destruct (Z.log2 z + K - 52) as [|p|d] eqn:En.
  - rewrite Z2Pos.id by lia. apply binary_round_aux_exact; lia.
  - rewrite Z2Pos.id by lia. apply binary_round_aux_exact; lia.
  - rewrite pos_iter_xO, Z2Pos.id by lia.
    replace (z * 2 ^ K * 2 ^ Z.pos d) with (z * 2 ^ (52 - Z.log2 z)).
    + replace (K + Z.log2 z + 1 + - K - 53) with (- (52 - Z.log2 z)) by lia.
      apply binary_round_aux_exact; lia.
    + rewrite <- Z.mul_assoc, <- Z.pow_add_r by lia. do 2 f_equal. lia.
Qed.

(** An integer below [2^53] is a number, exactly. *)
Lemma of_Z_canon (z : Z) : 0 < z < 2 ^ 53 -> of_Z z = canon false z.
Proof.
  intros Hz. unfold of_Z, binary_normalize.
  destruct z as [|m|m]; try lia.
  rewrite <- (binary_round_exact false (Z.pos m) 0) by lia.
  rewrite Z.pow_0_r, Z.mul_1_r. reflexivity.
Qed.

Lemma binary_normalize_exact (z K : Z) :
  0 <= z < 2 ^ 53 -> 0 <= K ->
  binary_normalize prec emax (z * 2 ^ K) (- K) false = of_Z z.
Proof.
  intros Hz HK.
  destruct (Z.eq_dec z 0) as [->|Hne]; [reflexivity|].
  rewrite of_Z_canon by lia.
  assert (Hpow : 0 < 2 ^ K) by (apply Z.pow_pos_nonneg; lia).
  assert (HM : 0 < z * 2 ^ K) by nia.
  unfold binary_normalize.
  destruct (z * 2 ^ K) as [|m|m] eqn:EM; try lia.
  rewrite <- (binary_round_exact false z K) by lia.
  rewrite EM. reflexivity.
Qed.

Lemma shl_align_fst (m : positive) (e ez : Z) :
  ez <= e -> Z.pos (fst (shl_align m e ez)) = Z.pos m * 2 ^ (e - ez).
Proof.
  intros H. unfold shl_align.
  destruct (ez - e) as [|p|d] eqn:E; try lia; cbn [fst].
  - replace (e - ez) with 0 by lia. lia.
  - rewrite pos_iter_xO. do 2 f_equal. lia.
Qed.

Lemma canon_mantissa (s : bool) (z : Z) :
  0 < z < 2 ^ 53 ->
  exists m, canon s z = S754_finite s m (Z.log2 z - 52)
            /\ Z.pos m = z * 2 ^ (52 - Z.log2 z).
Proof.
  intros Hz. pose proof (log2_small z Hz) as Hl.
  exists (Z.to_pos (z * 2 ^ (52 - Z.log2 z))). split; [reflexivity|].
  apply Z2Pos.id.
  assert (0 < 2 ^ (52 - Z.log2 z)) by (apply Z.pow_pos_nonneg; lia). nia.
Qed.

(** Adding two integers whose sum is below [2^53] is exact. *)
Lemma fadd_exact (a b : Z) :
  0 <= a -> 0 <= b -> a + b < 2 ^ 53 ->
  fadd (of_Z a) (of_Z b) = of_Z (a + b).
Proof.
  intros Ha Hb Hab.
  destruct (Z.eq_dec a 0) as [->|Hane].
  { destruct (Z.eq_dec b 0) as [->|Hbne]; [reflexivity|].
    rewrite Z.add_0_l, (of_Z_canon b) by lia. reflexivity. }
  destruct (Z.eq_dec b 0) as [->|Hbne].
  { rewrite Z.add_0_r, (of_Z_canon a) by lia. reflexivity. }
  rewrite (of_Z_canon a), (of_Z_canon b) by lia.
  destruct (canon_mantissa false a) as (ma & -> & Hma); [lia|].
  destruct (canon_mantissa false b) as (mb & -> & Hmb); [lia|].
  pose proof (log2_small a ltac:(lia)) as Hla.
  pose proof (log2_small b ltac:(lia)) as Hlb.
  unfold fadd, SFadd. cbn [cond_Zopp].
  set (ez := Z.min (Z.log2 a - 52) (Z.log2 b - 52)).
  rewrite !shl_align_fst, Hma, Hmb by (unfold ez; lia).
  rewrite <- (binary_normalize_exact (a + b) (- ez)) by (unfold ez; lia).
  rewrite Z.opp_involutive. f_equal.
  rewrite <- !Z.mul_assoc, <- !Z.pow_add_r by (unfold ez; lia).
  rewrite Z.mul_add_distr_r. f_equal; do 2 f_equal; lia.
Qed.

(** Multiplying two integers whose product is below [2^53] is exact. *)
Lemma fmul_exact (a b : Z) :
  0 <= a < 2 ^ 53 -> 0 <= b < 2 ^ 53 -> a * b < 2 ^ 53 ->
  SFmul prec emax (of_Z a) (of_Z b) = of_Z (a * b).
Proof.
  intros Ha Hb Hab.
  destruct (Z.eq_dec a 0) as [->|Hane].
  { destruct (Z.eq_dec b 0) as [->|Hbne]; [reflexivity|].
    rewrite Z.mul_0_l, (of_Z_canon b) by lia. reflexivity. }
  destruct (Z.eq_dec b 0) as [->|Hbne].
  { rewrite Z.mul_0_r, (of_Z_canon a) by lia. reflexivity. }
  assert (Ha' : 0 < a < 2 ^ 53) by lia.
  assert (Hb' : 0 < b < 2 ^ 53) by lia.
  rewrite (of_Z_canon a), (of_Z_canon b), (of_Z_canon (a * b)) by nia.
  destruct (canon_mantissa false a) as (ma & -> & Hma); [lia|].
  destruct (canon_mantissa false b) as (mb & -> & Hmb); [lia|].
  pose proof (log2_small a Ha') as Hla.
  pose proof (log2_small b Hb') as Hlb.
  pose proof (Z.log2_mul_below a b ltac:(lia) ltac:(lia)) as Hlab.
  unfold SFmul. cbn [xorb].
  rewrite Pos2Z.inj_mul, Hma, Hmb.
  rewrite <- (binary_round_aux_exact false (a * b)
                (104 - Z.log2 a - Z.log2 b)) by nia.
  f_equal.
  - replace (104 - Z.log2 a - Z.log2 b)
      with ((52 - Z.log2 a) + (52 - Z.log2 b)) by lia.
    rewrite Z.pow_add_r by lia. ring.
  - lia.
Qed.

End ExactIntegers.

Section ExactMore.

Lemma of_Z_finite (z : Z) : 0 < z < 2 ^ 53 -> is_finite (of_Z z) = true.
Proof. intros H. rewrite of_Z_canon by exact H. reflexivity. Qed.

(** Equality of numbers is equality of the integers they are. *)
Lemma SFeqb_of_Z (a b : Z) :
  0 <= a < 2 ^ 53 -> 0 <= b < 2 ^ 53 ->
  SFeqb (of_Z a) (of_Z b) = (a =? b).
Proof.
  intros Ha Hb.
  destruct (Z.eq_dec a 0) as [->|Hane].
  { destruct (Z.eq_dec b 0) as [->|Hbne]; [reflexivity|].
    rewrite (of_Z_canon b) by lia.
    replace (0 =? b) with false by (symmetry; apply Z.eqb_neq; lia).
    reflexivity. }
  destruct (Z.eq_dec b 0) as [->|Hbne].
  { rewrite (of_Z_canon a) by lia.
    replace (a =? 0) with false by (symmetry; apply Z.eqb_neq; lia).
    reflexivity. }
  rewrite (of_Z_canon a), (of_Z_canon b) by lia.
  destruct (canon_mantissa false a) as (ma & -> & Hma); [lia|].
  destruct (canon_mantissa false b) as (mb & -> & Hmb); [lia|].
  pose proof (log2_small a ltac:(lia)) as Hla.
  pose proof (log2_small b ltac:(lia)) as Hlb.
  unfold SFeqb, SFcompare.
  destruct (Z.compare_spec (Z.log2 a - 52) (Z.log2 b - 52)) as [He|He|He].
  - assert (Hl : Z.log2 a = Z.log2 b) by lia.
    change (Pos.compare_cont Eq ma mb) with (Pos.compare ma mb).
    destruct (Pos.compare_spec ma mb) as [Hm|Hm|Hm].
    + symmetry. apply Z.eqb_eq. subst mb. rewrite Hma, Hl in Hmb.
      apply Z.mul_reg_r in Hmb; [exact Hmb|].
      apply Z.pow_nonzero; lia.
    + symmetry. apply Z.eqb_neq. intros ->. lia.
    + symmetry. apply Z.eqb_neq. intros ->. lia.
  - symmetry. apply Z.eqb_neq. intros ->. lia.
  - symmetry. apply Z.eqb_neq. intros ->. lia.
Qed.

Lemma same_value_zero_of_Z (a b : Z) :
  0 <= a < 2 ^ 53 -> 0 <= b < 2 ^ 53 ->
  same_value_zero (of_Z a) (of_Z b) = (a =? b).
Proof.
  intros Ha Hb. rewrite <- SFeqb_of_Z by assumption.
  unfold same_value_zero.
  destruct (Z.eq_dec a 0) as [->|Hane]; [reflexivity|].
  rewrite (of_Z_canon a) by lia. reflexivity.
Qed.

Lemma key_of_of_Z (a : Z) : 0 <= a < 2 ^ 53 -> key_of (of_Z a) = of_Z a.
Proof.
  intros Ha. destruct (Z.eq_dec a 0) as [->|Hane]; [reflexivity|].
  rewrite (of_Z_canon a) by lia. reflexivity.
Qed.

(** The remainder of two integers below [2^53] is exact. *)
Lemma frem_exact (a b : Z) :
  0 <= a < 2 ^ 53 -> 0 < b < 2 ^ 53 ->
  frem (of_Z a) (of_Z b) = of_Z (a mod b).
Proof.
  intros Ha Hb.
  destruct (Z.eq_dec a 0) as [->|Hane].
  { rewrite (of_Z_canon b) by lia. reflexivity. }
  rewrite (of_Z_canon a), (of_Z_canon b) by lia.
  destruct (canon_mantissa false a) as (ma & -> & Hma); [lia|].
  destruct (canon_mantissa false b) as (mb & -> & Hmb); [lia|].
  pose proof (log2_small a ltac:(lia)) as Hla.
  pose proof (log2_small b ltac:(lia)) as Hlb.
  unfold frem. cbn [cond_Zopp].
  set (ez := Z.min (Z.log2 a - 52) (Z.log2 b - 52)).
  rewrite !shl_align_fst, Hma, Hmb by (unfold ez; lia).
  assert (Hpow : 0 < 2 ^ (- ez)) by (apply Z.pow_pos_nonneg; unfold ez; lia).
  pose proof (Z.mod_pos_bound a b ltac:(lia)) as Hmod.
  rewrite <- (binary_normalize_exact (a mod b) (- ez)) by (unfold ez; lia).
  rewrite Z.opp_involutive. f_equal.
  replace (a * 2 ^ (52 - Z.log2 a) * 2 ^ (Z.log2 a - 52 - ez))
    with (a * 2 ^ (- ez)).
  - replace (b * 2 ^ (52 - Z.log2 b) * 2 ^ (Z.log2 b - 52 - ez))
      with (b * 2 ^ (- ez)).
    + rewrite Z.rem_mod_nonneg by nia.
      apply Z.mul_mod_distr_r; lia.
    + rewrite <- Z.mul_assoc, <- Z.pow_add_r by (unfold ez; lia).
      do 2 f_equal. lia.
  - rewrite <- Z.mul_assoc, <- Z.pow_add_r by (unfold ez; lia).
    do 2 f_equal. lia.
Qed.

(** What a typed array keeps of any number is a byte. *)
Lemma to_uint8_byte (x : number) : (to_uint8 x < 256)%N.
Proof.
  destruct x as [s|s| |s m e]; try reflexivity.
  unfold to_uint8.
  match goal with |- (Z.to_N (?t mod 256) < 256)%N =>
    pose proof (Z.mod_pos_bound t 256 ltac:(lia)) end.
  lia.
Qed.

Lemma to_uint8_of_Z (v : Z) :
  0 <= v < 2 ^ 53 -> to_uint8 (of_Z v) = Z.to_N (v mod 256).
Proof.
  intros Hv.
  destruct (Z.eq_dec v 0) as [->|Hne]; [reflexivity|].
  rewrite (of_Z_canon v) by lia.
  destruct (canon_mantissa false v) as (m & -> & Hm); [lia|].
  pose proof (log2_small v ltac:(lia)) as Hl.
  unfold to_uint8. f_equal. f_equal.
  destruct (Z.log2 v - 52) as [|p|p] eqn:E; try lia.
  - rewrite Hm. replace (52 - Z.log2 v) with 0 by lia.
    rewrite !Z.pow_0_r. lia.
  - rewrite Hm. replace (52 - Z.log2 v) with (Z.pos p) by lia.
    apply Z.div_mul. apply Z.pow_nonzero; lia.
Qed.

End ExactMore.

End IntegersInBinary64.

(** ** The loops of the workloads *)

Section LoopsOfTheWorkloads.
Import JsBuiltins Bodies.
Local Open Scope Z_scope.

Section LoopFacts.

Lemma sum_from_S (i : Z) (n : nat) :
  sum_from i (S n) = i + sum_from (i + 1) n.
Proof.
  unfold sum_from. rewrite Nat2Z.inj_succ.
  replace (Z.succ (Z.of_nat n) * (Z.succ (Z.of_nat n) - 1))
    with (Z.of_nat n * (Z.of_nat n - 1) + Z.of_nat n * 2) by ring.
  rewrite Z.div_add by lia. ring.
Qed.

Lemma sum_from_nonneg (i : Z) (n : nat) : 0 <= i -> 0 <= sum_from i n.
Proof.
  revert i. induction n as [|n IH]; intros i Hi.
  - reflexivity.
  - rewrite sum_from_S. specialize (IH (i + 1) ltac:(lia)). lia.
Qed.

Lemma function_calls_from (n : nat) :
  forall i acc,
    0 <= i -> 0 <= acc -> acc + sum_from i n < 2 ^ 53 ->
    for_range n i (fun i result => add result (of_Z i)) (of_Z acc)
    = of_Z (acc + sum_from i n).
Proof.
  induction n as [|n IH]; intros i acc Hi Hacc Hsum.
  - change (sum_from i 0) with 0. rewrite Z.add_0_r. reflexivity.
  - rewrite sum_from_S in Hsum |- *.
    pose proof (sum_from_nonneg (i + 1) n ltac:(lia)) as Hnn.
    cbn [for_range]. unfold add at 2. rewrite fadd_exact by lia.
    rewrite IH by lia. f_equal. lia.
Qed.

End LoopFacts.

(** X1. testFunctionCalls: as long as [n (n - 1) / 2] is below [2^53], the
    accumulator after [n] calls of [add] is exactly that number: no call
    loses precision. *)
Theorem function_calls_sum (n : nat) :
  Z.of_nat n * (Z.of_nat n - 1) / 2 < 2 ^ 53 ->
  function_calls n = of_Z (Z.of_nat n * (Z.of_nat n - 1) / 2).
Proof.
  intros H. unfold function_calls.
  change zero with (of_Z 0).
  rewrite function_calls_from; unfold sum_from; rewrite ?Z.mul_0_r; try lia.
  reflexivity.
Qed.

Lemma function_calls_sum_witness :
  Z.of_nat (N.to_nat 1000000) * (Z.of_nat (N.to_nat 1000000) - 1) / 2 < 2 ^ 53
  /\ function_calls (N.to_nat 1000000) = of_Z 499999500000.
Proof.
  assert (E : Z.of_nat (N.to_nat 1000000) = 1000000) by (rewrite N_nat_Z; reflexivity).
  assert (H : Z.of_nat (N.to_nat 1000000) * (Z.of_nat (N.to_nat 1000000) - 1) / 2
              < 2 ^ 53).
  { rewrite E. vm_compute. reflexivity. }
  split; [exact H|].
  rewrite (function_calls_sum _ H), E. reflexivity.
Defined.

Section PipelineFacts.

Lemma double_exact (v : Z) :
  0 <= v < 2 ^ 52 -> fmul (of_Z v) (of_Z 2) = of_Z (v * 2).
Proof.
  intros H. unfold fmul. apply fmul_exact; lia.
Qed.

Lemma multiple_of_4_exact (v : Z) :
  0 <= v < 2 ^ 53 ->
  strict_equal (frem (of_Z v) (of_Z 4)) (of_Z 0) = (v mod 4 =? 0).
Proof.
  intros H. rewrite frem_exact by lia.
  pose proof (Z.mod_pos_bound v 4 ltac:(lia)).
  unfold strict_equal. apply SFeqb_of_Z; lia.
Qed.

Lemma array_pipeline_S (n : nat) :
  array_pipeline (S n)
  = fold_left (fun a b => fadd a b)
      (filter (fun x => strict_equal (frem x (of_Z 4)) (of_Z 0))
         [fmul (of_Z (Z.of_nat n)) (of_Z 2)])
      (array_pipeline n).
Proof.
  unfold array_pipeline, array_of_indices.
  rewrite seq_S, !map_app, filter_app, fold_left_app. reflexivity.
Qed.

Lemma sum_of_kept_bounds (n : Z) :
  0 <= n <= 2 ^ 26 -> 0 <= sum_of_kept n < 2 ^ 52.
Proof.
  intros H. unfold sum_of_kept.
  assert (Hc : 0 <= (n + 1) / 2 <= 2 ^ 25).
  { change (2 ^ 26) with 67108864 in H. change (2 ^ 25) with 33554432.
    split; [apply Z.div_pos; lia|].
    apply Z.lt_succ_r. apply Z.div_lt_upper_bound; lia. }
  set (c := (n + 1) / 2) in *.
  change (2 ^ 52) with (2 * 2 ^ 25 * 2 ^ 26).
  change (2 ^ 25) with 33554432 in *. change (2 ^ 26) with 67108864 in *.
  nia.
Qed.

Lemma sum_of_kept_even (n : Z) :
  0 <= n -> (n * 2) mod 4 = 0 ->
  sum_of_kept (n + 1) = sum_of_kept n + n * 2.
Proof.
  intros Hn H. unfold sum_of_kept.
  assert (E : exists m, n = 2 * m).
  { exists (n / 2). pose proof (Z.div_mod n 2 ltac:(lia)).
    pose proof (Z.mod_pos_bound n 2 ltac:(lia)).
    assert (n mod 2 = 0); [|lia].
    destruct (Z.eq_dec (n mod 2) 0) as [E|E]; [exact E|].
    assert (E1 : n mod 2 = 1) by lia.
    replace (n * 2) with ((n / 2) * 4 + 2) in H by lia.
    rewrite Z.add_comm, Z.mod_add in H by lia. discriminate H. }
  destruct E as [m ->].
  replace (2 * m + 1 + 1) with ((m + 1) * 2) by ring.
  rewrite Z.div_mul by lia.
  replace (2 * m + 1) with (1 + m * 2) by ring.
  rewrite Z.div_add by lia. change (1 / 2) with 0. ring.
Qed.

Lemma sum_of_kept_odd (n : Z) :
  0 <= n -> (n * 2) mod 4 <> 0 ->
  sum_of_kept (n + 1) = sum_of_kept n.
Proof.
  intros Hn H. unfold sum_of_kept.
  assert (E : exists m, n = 2 * m + 1).
  { exists (n / 2). pose proof (Z.div_mod n 2 ltac:(lia)).
    pose proof (Z.mod_pos_bound n 2 ltac:(lia)).
    assert (n mod 2 = 1); [|lia].
    destruct (Z.eq_dec (n mod 2) 1) as [E|E]; [exact E|].
    assert (E0 : n mod 2 = 0) by lia.
    exfalso. apply H.
    replace (n * 2) with (0 + (n / 2) * 4) by lia.
    rewrite Z.mod_add by lia. reflexivity. }
  destruct E as [m ->].
  replace (2 * m + 1 + 1 + 1) with (1 + (m + 1) * 2) by ring.
  replace (2 * m + 1 + 1) with (0 + (m + 1) * 2) by ring.
  rewrite !Z.div_add by lia. reflexivity.
Qed.

End PipelineFacts.

(** X2. testArrayOperations: on the indices below [length], doubling,
    keeping the multiples of 4 and summing gives exactly
    [2 c (c - 1)], where [c] is the number of even indices. *)
Theorem array_pipeline_sum (length : nat) :
  Z.of_nat length <= 2 ^ 26 ->
  array_pipeline length
  = of_Z (2 * ((Z.of_nat length + 1) / 2) * ((Z.of_nat length + 1) / 2 - 1)).
Proof.
  intros H. change (array_pipeline length = of_Z (sum_of_kept (Z.of_nat length))).
  induction length as [|n IH].
  - reflexivity.
  - rewrite Nat2Z.inj_succ in H |- *. unfold Z.succ in *.
    specialize (IH ltac:(lia)).
    pose proof (sum_of_kept_bounds (Z.of_nat n) ltac:(lia)) as Hb.
    assert (Hn : 0 <= Z.of_nat n < 2 ^ 52).
    { change (2 ^ 26) with 67108864 in H. change (2 ^ 52) with 4503599627370496. lia. }
    rewrite array_pipeline_S, IH, double_exact by exact Hn.
    cbn [filter].
    rewrite multiple_of_4_exact
      by (change (2 ^ 53) with (2 ^ 52 * 2); lia).
    destruct (Z.eqb_spec ((Z.of_nat n * 2) mod 4) 0) as [E|E].
    + cbn [fold_left]. rewrite fadd_exact by lia.
      rewrite sum_of_kept_even by lia. reflexivity.
    + cbn [fold_left]. rewrite sum_of_kept_odd by lia. reflexivity.
Qed.

Lemma array_pipeline_sum_witness :
  Z.of_nat 1000 <= 2 ^ 26 /\ array_pipeline 1000 = of_Z 499000.
Proof.
  assert (H : Z.of_nat 1000 <= 2 ^ 26) by (vm_compute; discriminate).
  split; [exact H|].
  rewrite (array_pipeline_sum 1000 H). reflexivity.
Defined.

Section BufferFacts.

Lemma typed_store_length (buffer : list N) (j : nat) (v : number) :
  List.length (typed_store buffer j v) = List.length buffer.
Proof.
  unfold typed_store. destruct (Nat.ltb_spec j (List.length buffer)) as [H|H].
  - rewrite length_app. cbn [List.length].
    rewrite firstn_length_le, length_skipn by lia. lia.
  - reflexivity.
Qed.

Lemma Forall_firstn_skipn {A} (P : A -> Prop) (l : list A) :
  Forall P l -> forall n, Forall P (firstn n l) /\ Forall P (skipn n l).
Proof.
  induction 1 as [|x l Hx Hl IH]; intros [|n]; cbn; repeat constructor;
    try assumption; apply IH.
Qed.

Lemma typed_store_bytes (buffer : list N) (j : nat) (v : number) :
  Forall is_byte buffer -> Forall is_byte (typed_store buffer j v).
Proof.
  intros H. unfold typed_store.
  destruct (Nat.ltb j (List.length buffer)); [|exact H].
  apply Forall_app. split; [apply Forall_firstn_skipn; exact H|].
  constructor; [apply to_uint8_byte|apply Forall_firstn_skipn; exact H].
Qed.

Lemma typed_store_at (pre post : list N) (x : N) (v : number) (k : nat) :
  k = List.length pre ->
  typed_store (pre ++ x :: post) k v = pre ++ to_uint8 v :: post.
Proof.
  intros ->. unfold typed_store.
  replace (Nat.ltb _ _) with true
    by (symmetry; apply Nat.ltb_lt; rewrite length_app; cbn; lia).
  f_equal; [|f_equal].
  - induction pre as [|y pre IH]; [reflexivity|]. cbn. f_equal. exact IH.
  - induction pre as [|y pre IH]; [reflexivity|]. exact IH.
Qed.

Lemma stored_wrapped (k : nat) :
  Z.of_nat k < 2 ^ 53 ->
  to_uint8 (frem (of_Z (Z.of_nat k)) (of_Z 256)) = wrapped k.
Proof.
  intros H. rewrite frem_exact by lia.
  pose proof (Z.mod_pos_bound (Z.of_nat k) 256 ltac:(lia)).
  rewrite to_uint8_of_Z by lia.
  rewrite Z.mod_mod by lia. unfold wrapped.
  change 256 with (Z.of_nat 256) at 1.
  rewrite <- Nat2Z.inj_mod, <- Z_nat_N, Nat2Z.id. reflexivity.
Qed.

Lemma buffer_fill_from (n : nat) :
  forall k,
    Z.of_nat (k + n) <= 2 ^ 53 ->
    for_range n (Z.of_nat k)
      (fun j buffer =>
         typed_store buffer (Z.to_nat j) (frem (of_Z j) (of_Z 256)))
      (map wrapped (seq 0 k) ++ List.repeat 0%N n)
    = map wrapped (seq 0 (k + n)).
Proof.
  induction n as [|n IH]; intros k H.
  - cbn [for_range List.repeat]. rewrite List.app_nil_r, Nat.add_0_r. reflexivity.
  - cbn [for_range List.repeat]. rewrite Nat2Z.id.
    rewrite typed_store_at
      by (rewrite length_map, length_seq; reflexivity).
    rewrite stored_wrapped by lia.
    replace (Z.of_nat k + 1) with (Z.of_nat (S k)) by lia.
    replace (map wrapped (seq 0 k) ++ wrapped k :: List.repeat 0%N n)
      with (map wrapped (seq 0 (S k)) ++ List.repeat 0%N n)
      by (rewrite seq_S, map_app, <- app_assoc; reflexivity).
    rewrite IH by lia. f_equal. f_equal. lia.
Qed.

End BufferFacts.

(** X3. testBufferOperations: after the loop, element [j] of the array
    holds [j mod 256], for every length a number can count. *)
Theorem buffer_fill_wraps (length : nat) :
  Z.of_nat length <= 2 ^ 53 ->
  buffer_fill length = map (fun j => N.of_nat (j mod 256)) (seq 0 length).
Proof.
  intros H. unfold buffer_fill, new_Uint8Array.
  exact (buffer_fill_from length 0 H).
Qed.

Lemma buffer_fill_wraps_witness :
  Z.of_nat 1000 <= 2 ^ 53
  /\ buffer_fill 1000 = map (fun j => N.of_nat (j mod 256)) (seq 0 1000).
Proof.
  assert (H : Z.of_nat 1000 <= 2 ^ 53) by (vm_compute; discriminate).
  split; [exact H | exact (buffer_fill_wraps 1000 H)].
Defined.

(** X4. A store into a typed array, whatever the index and the number
    stored, keeps the length of the array and keeps every element below
    256. *)
Theorem typed_store_keeps_bytes (buffer : list N) (j : nat) (v : number) :
  Forall (fun b => (b < 256)%N) buffer ->
  List.length (typed_store buffer j v) = List.length buffer
  /\ Forall (fun b => (b < 256)%N) (typed_store buffer j v).
Proof.
  intros H. split; [apply typed_store_length|].
  apply (typed_store_bytes buffer j v H).
Qed.

Lemma typed_store_keeps_bytes_witness :
  Forall (fun b => (b < 256)%N) [1; 2; 3]%N
  /\ List.length (typed_store [1; 2; 3]%N 1 (of_Z (-1))) = 3%nat
  /\ Forall (fun b => (b < 256)%N) (typed_store [1; 2; 3]%N 1 (of_Z (-1))).
Proof.
  assert (H : Forall (fun b => (b < 256)%N) [1; 2; 3]%N)
    by (repeat constructor).
  split; [exact H|].
  exact (typed_store_keeps_bytes [1; 2; 3]%N 1 (of_Z (-1)) H).
Defined.

Section CollectionFacts.

(** Equations between tests of order, by arithmetic. *)
Ltac order :=
  apply eq_iff_eq_true;
  rewrite ?orb_true_iff, ?andb_true_iff, ?Z.eqb_eq, ?Z.leb_le, ?Z.ltb_lt;
  intuition (discriminate || lia).

Lemma set_has_seq (n : nat) :
  forall i k,
    Z.of_nat (i + n) <= 2 ^ 53 -> 0 <= k < 2 ^ 53 ->
    set_has (map (fun j => of_Z (Z.of_nat j)) (seq i n)) (of_Z k)
    = (Z.of_nat i <=? k) && (k <? Z.of_nat (i + n)).
Proof.
  induction n as [|n IH]; intros i k Hn Hk.
  - cbn [seq map]. unfold set_has. cbn [existsb].
    order.
  - cbn [seq map]. unfold set_has in *. cbn [existsb].
    rewrite same_value_zero_of_Z by lia.
    rewrite IH by lia.
    order.
Qed.

Lemma map_has_fst (m : list (number * number)) (k : number) :
  map_has m k = set_has (map fst m) k.
Proof.
  unfold map_has, set_has. induction m as [|kv m IH]; [reflexivity|].
  cbn [map existsb]. rewrite IH. reflexivity.
Qed.

Lemma map_get_seq (n : nat) :
  forall i k,
    Z.of_nat (i + n) <= 2 ^ 53 -> 0 <= k < 2 ^ 53 ->
    map_get
      (map (fun j => (of_Z (Z.of_nat j), of_Z (Z.of_nat j * 2))) (seq i n))
      (of_Z k)
    = if (Z.of_nat i <=? k) && (k <? Z.of_nat (i + n))
      then Some (of_Z (k * 2)) else None.
Proof.
  induction n as [|n IH]; intros i k Hn Hk.
  - cbn [seq map map_get find].
    replace (_ && _) with false by order.
    reflexivity.
  - unfold map_get in *. cbn [seq map find fst].
    rewrite same_value_zero_of_Z by lia.
    destruct (Z.eqb_spec k (Z.of_nat i)) as [->|Hne].
    + replace (_ && _) with true by order.
      reflexivity.
    + rewrite IH by lia.
      replace ((Z.of_nat (S i) <=? k) && (k <? Z.of_nat (S i + n)))
        with ((Z.of_nat i <=? k) && (k <? Z.of_nat (i + S n))) by order.
      reflexivity.
Qed.

Lemma fst_doubles (n : nat) : map fst (doubles n) = array_of_indices n.
Proof.
  unfold doubles, array_of_indices. rewrite map_map. reflexivity.
Qed.

Lemma set_has_indices (n : nat) (k : Z) :
  Z.of_nat n <= 2 ^ 53 -> 0 <= k < 2 ^ 53 ->
  set_has (array_of_indices n) (of_Z k) = (k <? Z.of_nat n).
Proof.
  intros Hn Hk. unfold array_of_indices.
  rewrite set_has_seq by (cbn [Nat.add]; lia).
  cbn [Nat.add]. order.
Qed.

Lemma set_add_index (k : nat) :
  Z.of_nat k < 2 ^ 53 ->
  set_add (of_Z (Z.of_nat k)) (array_of_indices k) = array_of_indices (S k).
Proof.
  intros H. unfold set_add.
  rewrite set_has_indices, Z.ltb_irrefl, key_of_of_Z by lia.
  unfold array_of_indices. rewrite seq_S, map_app. reflexivity.
Qed.

Lemma map_set_index (k : nat) :
  Z.of_nat k < 2 ^ 52 ->
  map_set (of_Z (Z.of_nat k)) (fmul (of_Z (Z.of_nat k)) (of_Z 2)) (doubles k)
  = doubles (S k).
Proof.
  intros H. assert (H52 : 2 ^ 53 = 2 ^ 52 * 2) by reflexivity.
  unfold map_set.
  rewrite map_has_fst, fst_doubles, set_has_indices, Z.ltb_irrefl by lia.
  rewrite key_of_of_Z, double_exact by lia.
  unfold doubles. rewrite seq_S, map_app. reflexivity.
Qed.

Lemma collections_from (n : nat) :
  forall k,
    Z.of_nat (k + n) <= 2 ^ 52 ->
    for_range n (Z.of_nat k)
      (fun j sm =>
         (set_add (of_Z j) (fst sm),
          map_set (of_Z j) (fmul (of_Z j) (of_Z 2)) (snd sm)))
      (array_of_indices k, doubles k)
    = (array_of_indices (k + n), doubles (k + n)).
Proof.
  assert (H52 : 2 ^ 53 = 2 ^ 52 * 2) by reflexivity.
  induction n as [|n IH]; intros k H.
  - cbn [for_range]. rewrite Nat.add_0_r. reflexivity.
  - cbn [for_range fst snd].
    rewrite set_add_index, map_set_index by lia.
    replace (Z.of_nat k + 1) with (Z.of_nat (S k)) by lia.
    rewrite IH by lia. f_equal; f_equal; lia.
Qed.

End CollectionFacts.

(** X5. testCollectionOperations: after the loop the set holds the numbers
    below [count] and the map sends each of them to its double, both in
    insertion order and without a duplicate. *)
Theorem collections_contents (count : nat) :
  Z.of_nat count <= 2 ^ 52 ->
  collections count
  = (map (fun j => of_Z (Z.of_nat j)) (seq 0 count),
     map (fun j => (of_Z (Z.of_nat j), of_Z (Z.of_nat j * 2))) (seq 0 count)).
Proof.
  intros H. unfold collections. exact (collections_from count 0 H).
Qed.

Lemma collections_contents_witness :
  Z.of_nat 100 <= 2 ^ 52
  /\ collections 100
     = (map (fun j => of_Z (Z.of_nat j)) (seq 0 100),
        map (fun j => (of_Z (Z.of_nat j), of_Z (Z.of_nat j * 2))) (seq 0 100)).
Proof.
  assert (H : Z.of_nat 100 <= 2 ^ 52) by (vm_compute; discriminate).
  split; [exact H | exact (collections_contents 100 H)].
Defined.

(** X6. testCollectionOperations: after the loop, [set.has(k)] holds of an
    integer [k] exactly when [k < count], and [map.get(k)] is [2 k] then
    and [undefined] otherwise. *)
Theorem collections_lookup (count : nat) (k : Z) :
  Z.of_nat count <= 2 ^ 52 -> 0 <= k < 2 ^ 53 ->
  set_has (fst (collections count)) (of_Z k) = (k <? Z.of_nat count)
  /\ map_get (snd (collections count)) (of_Z k)
     = if k <? Z.of_nat count then Some (of_Z (k * 2)) else None.
Proof.
  intros H Hk. assert (H52 : 2 ^ 53 = 2 ^ 52 * 2) by reflexivity.
  pose proof (collections_from count 0 H) as E.
  change (collections count = (array_of_indices count, doubles count)) in E.
  rewrite E. cbn [fst snd]. split.
  - apply set_has_indices; lia.
  - unfold doubles. rewrite map_get_seq by (cbn [Nat.add]; lia).
    cbn [Nat.add]. change (Z.of_nat 0) with 0.
    replace (0 <=? k) with true by (symmetry; apply Z.leb_le; lia).
    reflexivity.
Qed.

Lemma collections_lookup_witness :
  Z.of_nat 100 <= 2 ^ 52 /\ 0 <= 50 < 2 ^ 53
  /\ set_has (fst (collections 100)) (of_Z 50) = true
  /\ map_get (snd (collections 100)) (of_Z 50) = Some (of_Z 100).
Proof.
  assert (H : Z.of_nat 100 <= 2 ^ 52) by (vm_compute; discriminate).
  assert (Hk : 0 <= 50 < 2 ^ 53) by (split; [discriminate | reflexivity]).
  split; [exact H|]. split; [exact Hk|].
  exact (collections_lookup 100 50 H Hk).
Defined.

End LoopsOfTheWorkloads.

(** ** Texts *)

Section TextsOfTheWorkloads.
Import JsBuiltins Bodies.

Section SplitFacts.

Lemma starts_with_prefix (p s : jsstring) :
  starts_with p s = true -> exists rest, s = p ++ rest.
Proof.
  revert s. induction p as [|a p IH]; intros s H.
  - exists s. reflexivity.
  - destruct s as [|b s]; [discriminate|]. cbn [starts_with] in H.
    apply andb_true_iff in H. destruct H as [Hab Hp].
    apply N.eqb_eq in Hab. subst b.
    destruct (IH s Hp) as [rest ->]. exists rest. reflexivity.
Qed.

Lemma split_aux_skip (sep pre : jsstring) :
  forall piece s,
    split_aux sep (List.length pre) piece (pre ++ s)
    = split_aux sep 0 piece s.
Proof.
  induction pre as [|a pre IH]; intros piece s.
  - destruct s; reflexivity.
  - cbn [List.length app split_aux]. apply IH.
Qed.

Lemma split_aux_nonempty (sep : jsstring) (s : jsstring) :
  forall skip piece, split_aux sep skip piece s <> [].
Proof.
  induction s as [|c r IH]; intros skip piece; cbn [split_aux].
  - discriminate.
  - destruct skip; [|apply IH].
    destruct (starts_with sep (c :: r)); [discriminate | apply IH].
Qed.

Lemma join_cons (sep x : jsstring) (rest : list jsstring) :
  rest <> [] -> join sep (x :: rest) = x ++ sep ++ join sep rest.
Proof. destruct rest; [congruence | reflexivity]. Qed.

Lemma join_split_aux (sep : jsstring) (n : nat) :
  sep <> [] ->
  forall s piece,
    (List.length s <= n)%nat ->
    join sep (split_aux sep 0 piece s) = rev piece ++ s.
Proof.
  intros Hsep. induction n as [|n IH]; intros s piece Hn.
  - destruct s; [|cbn in Hn; lia]. cbn. rewrite List.app_nil_r. reflexivity.
  - destruct s as [|c r].
    + cbn. rewrite List.app_nil_r. reflexivity.
    + cbn [split_aux]. destruct (starts_with sep (c :: r)) eqn:E.
      * destruct (starts_with_prefix _ _ E) as [rest Hrest].
        destruct sep as [|a sep']; [congruence|].
        cbn [app] in Hrest. injection Hrest as -> ->.
        replace (List.length (_ :: sep') - 1)%nat with (List.length sep')
          by (cbn [List.length]; lia).
        rewrite split_aux_skip.
        rewrite join_cons by apply split_aux_nonempty.
        rewrite IH.
        -- reflexivity.
        -- cbn [List.length] in Hn. rewrite length_app in Hn. lia.
      * rewrite IH by (cbn [List.length] in Hn; lia).
        cbn [rev]. rewrite <- app_assoc. reflexivity.
Qed.

Lemma join_units (s : jsstring) : join [] (map (fun c => [c]) s) = s.
Proof.
  induction s as [|c r IH]; [reflexivity|].
  destruct r as [|c' r]; [reflexivity|].
  change (join [] (map _ (c :: c' :: r)))
    with (c :: join [] (map (fun c => [c]) (c' :: r))).
  rewrite IH. reflexivity.
Qed.

(** Splitting at a separator of one code unit and joining with [t] puts
    [t] in the place of every occurrence of the code unit. *)
Lemma join_split_unit (a : code_unit) (t : jsstring) (s : jsstring) :
  forall piece,
    join t (split_aux [a] 0 piece s)
    = rev piece ++ flat_map (fun c => if N.eqb a c then t else [c]) s.
Proof.
  induction s as [|c r IH]; intros piece.
  - cbn. rewrite List.app_nil_r. reflexivity.
  - cbn [split_aux starts_with flat_map List.length Nat.sub].
    rewrite andb_true_r. destruct (N.eqb a c).
    + rewrite join_cons by apply split_aux_nonempty.
      rewrite IH. reflexivity.
    + rewrite IH. cbn [rev]. rewrite <- app_assoc. reflexivity.
Qed.

Lemma upper_aux_ascii (unicode_upper : jsstring -> jsstring) (s : jsstring) :
  forallb is_ascii s = true ->
  upper_aux unicode_upper [] s = map ascii_upper s.
Proof.
  induction s as [|c r IH]; [reflexivity|].
  cbn [forallb upper_aux map]. intros H.
  apply andb_true_iff in H. destruct H as [Hc Hr].
  rewrite Hc, IH by exact Hr. reflexivity.
Qed.

Lemma flat_map_units {A B} (f : A -> B) (l : list A) :
  flat_map (fun c => [f c]) l = map f l.
Proof. induction l as [|a l IH]; [reflexivity|]. cbn. rewrite IH. reflexivity. Qed.

End SplitFacts.

(** X7. [pieces = s.split(sep)] followed by [pieces.join(sep)] gives [s]
    back, whatever the separator, the empty one included. *)
Theorem join_split (sep s : jsstring) : join sep (split sep s) = s.
Proof.
  destruct sep as [|a sep'].
  - apply join_units.
  - unfold split.
    rewrite join_split_aux with (n := List.length s); [reflexivity | discriminate | lia].
Qed.

(** X8. testStringOperations: on a text of ASCII code units,
    [result.split(" ").join("-").toUpperCase()] puts a dash in the place of
    every space and the capital in the place of every small letter, and
    changes nothing else; the case tables of Unicode play no part. *)
Theorem dashed_upper_ascii (unicode_upper : jsstring -> jsstring)
    (result : jsstring) :
  forallb is_ascii result = true ->
  dashed_upper unicode_upper result
  = map (fun c => if N.eqb c 32 then 45%N else ascii_upper c) result.
Proof.
  intros H. unfold dashed_upper, toUpperCase.
  change (str "-") with [45%N]. change (str " ") with [32%N].
  unfold split. rewrite join_split_unit. cbn [rev app].
  rewrite upper_aux_ascii.
  - induction result as [|c r IH]; [reflexivity|].
    cbn [forallb] in H. apply andb_true_iff in H. destruct H as [_ Hr].
    cbn [flat_map map]. rewrite N.eqb_sym.
    destruct (N.eqb c 32); cbn [app map]; rewrite (IH Hr); reflexivity.
  - induction result as [|c r IH]; [reflexivity|].
    cbn [forallb] in H. apply andb_true_iff in H. destruct H as [Hc Hr].
    cbn [flat_map]. rewrite forallb_app, (IH Hr), andb_true_r.
    destruct (N.eqb 32 c); [reflexivity|]. cbn [forallb]. rewrite Hc. reflexivity.
Qed.

Lemma dashed_upper_ascii_witness :
  forallb is_ascii string_result = true
  /\ dashed_upper (fun s => s) string_result
     = str "HELLOHELLOHELLOHELLOHELLOHELLOHELLOHELLOHELLOHELLO-WORLDWORLDWORLDWORLDWORLDWORLDWORLDWORLDWORLDWORLD".
Proof.
  assert (H : forallb is_ascii string_result = true) by reflexivity.
  split; [exact H|].
  rewrite (dashed_upper_ascii (fun s => s) string_result H). reflexivity.
Defined.

Section RegexFacts.

Lemma nullable_denoted (r : regex) : nullable r = true <-> denoted r [].
Proof.
  induction r as [| |p|r1 IH1 r2 IH2|r1 IH1 r2 IH2|r IH]; cbn [nullable].
  - split; [discriminate | inversion 1].
  - split; [constructor | reflexivity].
  - split; [discriminate | inversion 1].
  - rewrite andb_true_iff, IH1, IH2. split.
    + intros [H1 H2]. apply (denoted_cat _ _ [] [] H1 H2).
    + intros H. inversion H as [| |? ? s1 s2 H1 H2 E1 E2| | | |]; subst.
      apply app_eq_nil in E2. destruct E2; subst. split; assumption.
  - rewrite orb_true_iff, IH1, IH2. split.
    + intros [H|H]; [apply denoted_left | apply denoted_right]; exact H.
    + inversion 1; subst; [left | right]; assumption.
  - split; [constructor | reflexivity].
Qed.

(** A non-empty string of [r*] starts with a non-empty string of [r]. *)
Lemma denoted_star_cons (r : regex) (s : jsstring) :
  denoted (Star r) s -> forall c rest, s = c :: rest ->
  exists s1 s2, rest = s1 ++ s2 /\ denoted r (c :: s1) /\ denoted (Star r) s2.
Proof.
  intros H. remember (Star r) as r' eqn:Er.
  induction H as [| | | | | r0 | r0 s1 s2 H1 _ H2 IH2]; try discriminate.
  injection Er as ->. intros c rest E.
  destruct s1 as [|c1 s1].
  - apply (IH2 eq_refl c rest E).
  - cbn [app] in E. injection E as -> <-.
    exists s1, s2. repeat split; assumption.
Qed.

Lemma derive_denoted (r : regex) :
  forall c s, denoted (derive c r) s <-> denoted r (c :: s).
Proof.
  induction r as [| |p|r1 IH1 r2 IH2|r1 IH1 r2 IH2|r IH]; intros c s;
    cbn [derive].
  - split; inversion 1.
  - split; inversion 1.
  - destruct (p c) eqn:E.
    + split.
      * inversion 1; subst. constructor. exact E.
      * inversion 1; subst. constructor.
    + split; [inversion 1|]. inversion 1; subst. congruence.
  - assert (Hcat : denoted (Cat (derive c r1) r2) s
                   -> denoted (Cat r1 r2) (c :: s)).
    { inversion 1 as [| |? ? s1 s2 H1 H2| | | |]; subst.
      apply IH1 in H1. apply (denoted_cat _ _ (c :: s1) s2 H1 H2). }
    assert (Hinv : denoted (Cat r1 r2) (c :: s) ->
              denoted (Cat (derive c r1) r2) s
              \/ (denoted r1 [] /\ denoted r2 (c :: s))).
    { inversion 1 as [| |? ? s1 s2 H1 H2 E1 E2| | | |]; subst.
      destruct s1 as [|c1 s1].
      - right. cbn [app] in E2. subst. split; assumption.
      - left. cbn [app] in E2. injection E2 as -> <-.
        constructor; [apply IH1|]; assumption. }
    destruct (nullable r1) eqn:En.
    + split.
      * inversion 1; subst; [apply Hcat; assumption|].
        apply (denoted_cat r1 r2 [] (c :: s)).
        -- apply nullable_denoted. exact En.
        -- apply IH2. assumption.
      * intros H. destruct (Hinv H) as [H1|[_ H2]].
        -- apply denoted_left. exact H1.
        -- apply denoted_right. apply IH2. exact H2.
    + split; [exact Hcat|].
      intros H. destruct (Hinv H) as [H1|[H0 _]]; [exact H1|].
      apply nullable_denoted in H0. congruence.
  - split.
    + inversion 1; subst; [apply denoted_left; apply IH1
                          | apply denoted_right; apply IH2]; assumption.
    + inversion 1; subst; [apply denoted_left; apply IH1
                          | apply denoted_right; apply IH2]; assumption.
  - split.
    + inversion 1 as [| |? ? s1 s2 H1 H2| | | |]; subst.
      apply IH in H1. apply (denoted_star_more r (c :: s1) s2 H1 H2).
    + intros H.
      destruct (denoted_star_cons r _ H c s eq_refl) as (s1 & s2 & -> & H1 & H2).
      constructor; [apply IH|]; assumption.
Qed.

(** The matcher decides membership. *)
Lemma matches_denoted (s : jsstring) :
  forall r, matches r s = true <-> denoted r s.
Proof.
  induction s as [|c s IH]; intros r; cbn [matches].
  - apply nullable_denoted.
  - rewrite IH. apply derive_denoted.
Qed.

Lemma denoted_star_class (p : code_unit -> bool) (s : jsstring) :
  denoted (Star (Class p)) s <-> forallb p s = true.
Proof.
  split.
  - intros H. remember (Star (Class p)) as r eqn:Er.
    induction H as [| | | | | r0 | r0 s1 s2 H1 _ H2 IH2]; try discriminate.
    + reflexivity.
    + injection Er as ->. inversion H1; subst.
      cbn [app forallb]. rewrite IH2 by reflexivity.
      rewrite andb_true_r. assumption.
  - induction s as [|c s IH]; cbn [forallb]; intros H.
    + constructor.
    + apply andb_true_iff in H. destruct H as [Hc Hs].
      apply (denoted_star_more (Class p) [c] s).
      * constructor. exact Hc.
      * apply IH. exact Hs.
Qed.

Lemma denoted_plus_class (p : code_unit -> bool) (s : jsstring) :
  denoted (plus (Class p)) s <-> s <> [] /\ forallb p s = true.
Proof.
  unfold plus. split.
  - inversion 1 as [| |? ? s1 s2 H1 H2| | | |]; subst.
    inversion H1; subst. apply denoted_star_class in H2.
    cbn [app forallb]. split; [discriminate|].
    apply andb_true_iff. split; assumption.
  - intros [Hne H]. destruct s as [|c s]; [congruence|].
    cbn [forallb] in H. apply andb_true_iff in H. destruct H as [Hc Hs].
    apply (denoted_cat (Class p) _ [c] s).
    + constructor. exact Hc.
    + apply denoted_star_class. exact Hs.
Qed.

Lemma denoted_at_least_two_class (p : code_unit -> bool) (s : jsstring) :
  denoted (at_least_two (Class p)) s
  <-> (2 <= List.length s)%nat /\ forallb p s = true.
Proof.
  unfold at_least_two. split.
  - inversion 1 as [| |? ? s1 s2 H1 H2| | | |]; subst.
    inversion H1; subst.
    apply (denoted_plus_class p) in H2. destruct H2 as [Hne H2].
    cbn [app forallb List.length]. split.
    + destruct s2; [congruence | cbn; lia].
    + apply andb_true_iff. split; assumption.
  - intros [Hlen H]. destruct s as [|c s]; [cbn in Hlen; lia|].
    cbn [forallb] in H. apply andb_true_iff in H. destruct H as [Hc Hs].
    apply (denoted_cat (Class p) _ [c] s).
    + constructor. exact Hc.
    + apply (denoted_plus_class p). split; [|exact Hs].
      destruct s; [cbn in Hlen; lia | discriminate].
Qed.

Lemma denoted_unit (a : code_unit) (s : jsstring) :
  denoted (Class (N.eqb a)) s <-> s = [a].
Proof.
  split.
  - inversion 1; subst. f_equal.
    symmetry. apply N.eqb_eq. assumption.
  - intros ->. constructor. apply N.eqb_refl.
Qed.

End RegexFacts.

(** X9. testRegExpOperations: the pattern accepts exactly the texts
    [local @ domain . letters], where [local] is one or more of the
    letters, the digits and [. _ % + -], [domain] is one or more of the
    letters, the digits and [. -], and [letters] is two or more letters. *)
Theorem pattern_accepts (s : jsstring) :
  matches pattern s = true
  <-> exists local domain letters,
        s = local ++ str "@" ++ domain ++ str "." ++ letters
        /\ local <> [] /\ forallb local_char local = true
        /\ domain <> [] /\ forallb domain_char domain = true
        /\ (2 <= List.length letters)%nat
        /\ forallb is_letter letters = true.
Proof.
  rewrite matches_denoted. unfold pattern. split.
  - inversion 1 as [| |? ? l s1 Hl H1| | | |]; subst.
    inversion H1 as [| |? ? at_ s2 Hat H2| | | |]; subst.
    inversion H2 as [| |? ? d s3 Hd H3| | | |]; subst.
    inversion H3 as [| |? ? dot t Hdot Ht| | | |]; subst.
    apply denoted_plus_class in Hl, Hd.
    apply denoted_unit in Hat, Hdot. subst.
    apply denoted_at_least_two_class in Ht.
    exists l, d, t. intuition.
  - intros (l & d & t & -> & Hl & Hl' & Hd & Hd' & Ht & Ht').
    repeat apply denoted_cat.
    + apply denoted_plus_class. split; assumption.
    + apply (denoted_unit 64). reflexivity.
    + apply denoted_plus_class. split; assumption.
    + apply (denoted_unit 46). reflexivity.
    + apply denoted_at_least_two_class. split; assumption.
Qed.

Section MatchFacts.




End MatchFacts.


Example pattern_accepts_the_text : matches pattern text = true.
Proof. reflexivity. Qed.

Example pattern_wants_two_letters_at_the_end :
  matches pattern (str "test.email123@example.c") = false.
Proof. reflexivity. Qed.

Example digits_of_the_text : match_all is_digit text = Some [str "123"].
Proof. reflexivity. Qed.

End TextsOfTheWorkloads.

(** ** The asynchronous batch *)

Section AsynchronousBatch.
Import JsBuiltins Bodies.

Section PromiseFacts.
Import Workloads Schedule.

Lemma promise_all_fulfilled_iff {A} (ps : list (promise A)) (vs : list A) :
  promise_all ps = Fulfilled vs <-> ps = map (@Fulfilled A) vs.
Proof.
  revert vs. induction ps as [|[v|e] ps IH]; intros vs; cbn [promise_all].
  - split.
    + intros H. injection H as <-. reflexivity.
    + destruct vs; [reflexivity | discriminate].
  - destruct (promise_all ps) as [vs'|e'] eqn:E.
    + split.
      * intros H. injection H as <-. cbn [map]. f_equal.
        apply IH. reflexivity.
      * destruct vs as [|v0 vs]; [discriminate|]. cbn [map].
        intros H. injection H as -> H. apply IH in H.
        injection H as ->. reflexivity.
    + split; [discriminate|].
      destruct vs as [|v0 vs]; [discriminate|]. cbn [map].
      intros H. injection H as -> H. apply IH in H. discriminate.
  - split; [discriminate|]. destruct vs; discriminate.
Qed.

Lemma promise_all_rejected_iff {A} (ps : list (promise A)) (e : exn) :
  promise_all ps = Rejected e
  <-> exists vs rest, ps = map (@Fulfilled A) vs ++ Rejected e :: rest.
Proof.
  induction ps as [|[v|e'] ps IH]; cbn [promise_all].
  - split; [discriminate|]. intros (vs & rest & H).
    destruct vs; discriminate.
  - destruct (promise_all ps) as [vs'|e''] eqn:E.
    + split; [discriminate|]. intros (vs & rest & H).
      destruct vs as [|v0 vs]; [discriminate|]. cbn [map app] in H.
      injection H as -> H.
      assert (X : Fulfilled vs' = Rejected e :> promise (list A));
        [|discriminate].
      apply IH. exists vs, rest. exact H.
    + split.
      * intros H. injection H as ->.
        destruct (proj1 IH eq_refl) as (vs & rest & ->).
        exists (v :: vs), rest. reflexivity.
      * intros (vs & rest & H).
        destruct vs as [|v0 vs]; [discriminate|]. cbn [map app] in H.
        injection H as -> H. f_equal.
        assert (X : Rejected e'' = Rejected e :> promise (list A)).
        { apply IH. exists vs, rest. exact H. }
        injection X as ->. reflexivity.
  - split.
    + intros H. injection H as ->. exists [], ps. reflexivity.
    + intros (vs & rest & H). destruct vs as [|v0 vs]; [|discriminate].
      cbn [map app] in H. injection H as -> _. reflexivity.
Qed.

Lemma indices_bound (n : nat) :
  forall i j, In j (indices n i) -> (i <= j < i + N.of_nat n)%N.
Proof.
  induction n as [|n IH]; intros i j; cbn [indices]; [intros []|].
  intros [<-|H]; [lia|]. apply IH in H. lia.
Qed.

End PromiseFacts.

(** X11. [Promise.all] of promises that are settled when it is called: it
    is fulfilled, with the values in order, exactly when every promise is
    fulfilled, and rejected with a reason exactly when that is the reason
    of the first promise in order that is rejected. *)
Theorem promise_all_settles {A} (ps : list (Workloads.promise A)) :
  (forall vs,
     Workloads.promise_all ps = Workloads.Fulfilled vs
     <-> ps = map (@Workloads.Fulfilled A) vs)
  /\ (forall e,
        Workloads.promise_all ps = Workloads.Rejected e
        <-> exists vs rest,
              ps = map (@Workloads.Fulfilled A) vs
                     ++ Workloads.Rejected e :: rest).
Proof.
  split; intros x;
    [apply promise_all_fulfilled_iff | apply promise_all_rejected_iff].
Qed.

(** X12. testAsyncOperations: a batch of [length] sub-operations is
    fulfilled, whatever the world, with the doubles of the indices below
    [length], each one exact. *)
Theorem batch_is_fulfilled_with_doubles (length : nat) (w : Workloads.World) :
  (Z.of_nat length <= 2 ^ 52)%Z ->
  Workloads.promise_all
    (fst (Workloads.array_from length 0%N Workloads.sub_operation w))
  = Workloads.Fulfilled
      (map (fun i => of_Z (Z.of_N i * 2)%Z) (Schedule.indices length 0%N)).
Proof.
  intros H. rewrite ProgramFacts.array_from_sub_operation. cbn [fst].
  rewrite ProgramFacts.promise_all_fulfilled. f_equal.
  apply map_ext_in. intros i Hi. apply indices_bound in Hi.
  unfold Schedule.doubled. apply double_exact. lia.
Qed.

Lemma batch_is_fulfilled_with_doubles_witness :
  (Z.of_nat 10000 <= 2 ^ 52)%Z
  /\ Workloads.promise_all
       (fst (Workloads.array_from 10000 0%N Workloads.sub_operation
               Examples.steady))
     = Workloads.Fulfilled
         (map (fun i => of_Z (Z.of_N i * 2)%Z) (Schedule.indices 10000 0%N)).
Proof.
  assert (H : (Z.of_nat 10000 <= 2 ^ 52)%Z) by (vm_compute; discriminate).
  split; [exact H|].
  exact (batch_is_fulfilled_with_doubles 10000 Examples.steady H).
Defined.

End AsynchronousBatch.

(** ** The report *)

Section ReportOfTheRun.
Import JsBuiltins Bodies.

Section ReportFacts.
Import Workloads Schedule.

Lemma fsub_self (c : number) : is_finite c = true -> fsub c c = zero.
Proof.
  destruct c as [[|]|s| |s m e]; try discriminate; try reflexivity.
  intros _. unfold fsub, SFsub.
  set (M := Z.pos (fst (shl_align m e (Z.min e e)))).
  rewrite Z.sub_diag. reflexivity.
Qed.

Lemma rate_of_no_time (count : number) :
  SFltb zero count = true -> rate count zero = S754_infinity false.
Proof.
  destruct count as [[|]|[|]| |[|] m e]; cbv; try congruence.
Qed.

End ReportFacts.

(** X13. Every run of the program, on any host and any clock, completes:
    nothing is written to the error stream, the clock is read 38 times,
    and the report is the one of the nine times
    [clock (4 i + 3) - clock (4 i + 2)], [i] from 0 to 8, and of the
    asynchronous time [clock 37 - clock 36]. The readings of the warm-up
    calls play no part. *)
Theorem report_of_the_clock (host : Host) (clock : nat -> number) :
  let p := Workloads.program host (Workloads.boot clock) in
  trace p
  = full_trace host Workloads.tests
      (map (fun i => fsub (clock (4 * i + 3)) (clock (4 * i + 2))) (seq 0 9))
      (fsub (clock 37) (clock 36))
  /\ stderr p = []
  /\ exitCode p = 0%Z
  /\ Workloads.reads (world p) = 38
  /\ List.length (printed (trace p)) = 20.
Proof.
  cbv zeta. rewrite ProgramFacts.program_run.
  cbn [trace stderr exitCode world Workloads.reads].
  split; [reflexivity|]. split; [reflexivity|]. split; [reflexivity|].
  split; [reflexivity|].
  unfold full_trace. rewrite !printed_app, printed_test_events.
  rewrite !length_app, length_map, length_combine. reflexivity.
Qed.

(** X14. An empty registry: the run still measures the asynchronous
    workload and prints its row, and the total it prints is 0.00. *)
Theorem empty_registry_total
    (W : Type) (host : Host) (asyncOp : workload W) (w : W)
    (asyncTime : number) (w2 : W) :
  asyncOp w = (Normal asyncTime, w2) ->
  runBenchmarks host [] asyncOp w
  = (Normal tt, w2,
     header host ++ announcement ++ async_events asyncTime
       ++ [Printed []; Printed rule;
           Printed (str "  Total Runtime: 0.00 ms"); Printed rule]).
Proof.
  intros Ha.
  rewrite (runBenchmarks_normal W host [] asyncOp w [] w asyncTime w2
             (measures_nil W w) Ha).
  reflexivity.
Qed.

Lemma empty_registry_total_witness :
  Workloads.testAsyncOperations Examples.frozen
  = (Normal zero,
     snd (Workloads.testAsyncOperations Examples.frozen))
  /\ printed
       (snd (runBenchmarks Examples.node [] Workloads.testAsyncOperations
               Examples.frozen))
     = [rule; str "  Performance Stress Test - Node.js v20.11.0"; rule; [];
        []; str "Running async operations test...";
        str "Async/Promise                   0.00 ms         Infinity ops/sec";
        []; rule; str "  Total Runtime: 0.00 ms"; rule].
Proof.
  assert (Ha : Workloads.testAsyncOperations Examples.frozen
               = (Normal zero,
                  snd (Workloads.testAsyncOperations Examples.frozen))).
  { rewrite ProgramFacts.testAsyncOperations_run. reflexivity. }
  split; [exact Ha|].
  rewrite (empty_registry_total Workloads.World Examples.node
             Workloads.testAsyncOperations Examples.frozen zero _ Ha).
  reflexivity.
Defined.

(** X15. A clock too coarse to tell the two readings of a workload apart:
    the time is printed as 0.00 and the throughput, for a positive count,
    as Infinity. *)
Theorem no_elapsed_time_prints_Infinity (count c : number) :
  is_finite c = true ->
  SFltb zero count = true ->
  toFixed 2 (fsub c c) = str "0.00"
  /\ toFixed 0 (rate count (fsub c c)) = str "Infinity".
Proof.
  intros Hc Hcount. rewrite fsub_self by exact Hc.
  split; [reflexivity|]. rewrite rate_of_no_time by exact Hcount.
  reflexivity.
Qed.

Lemma no_elapsed_time_prints_Infinity_witness :
  is_finite (of_Z 5) = true
  /\ SFltb zero Workloads.ITERATIONS = true
  /\ toFixed 2 (fsub (of_Z 5) (of_Z 5)) = str "0.00"
  /\ toFixed 0 (rate Workloads.ITERATIONS (fsub (of_Z 5) (of_Z 5)))
     = str "Infinity".
Proof.
  assert (H1 : is_finite (of_Z 5) = true) by reflexivity.
  assert (H2 : SFltb zero Workloads.ITERATIONS = true) by reflexivity.
  split; [exact H1|]. split; [exact H2|].
  exact (no_elapsed_time_prints_Infinity Workloads.ITERATIONS (of_Z 5) H1 H2).
Defined.

Section ParseFacts.

Lemma digits_value_uint (d : Decimal.uint) :
  forall acc,
    fold_left digit_step (digits_of_uint d) acc
    = match acc with
      | Z0 => Z.of_N (Pos.of_uint d)
      | Zpos p => Zpos (Pos.of_uint_acc d p)
      | Zneg _ => fold_left digit_step (digits_of_uint d) acc
      end.
Proof.
  induction d as [|d IH|d IH|d IH|d IH|d IH|d IH|d IH|d IH|d IH|d IH];
    intros [|p|p]; try reflexivity;
    cbn [digits_of_uint fold_left Pos.of_uint_acc Pos.of_uint].
  all: try (rewrite IH; reflexivity).
  all: match goal with
       | |- _ = Z.pos (Pos.of_uint_acc _ ?q) =>
           replace (digit_step (Z.pos p) _) with (Z.pos q)
             by (unfold digit_step; lia)
       end; rewrite IH; reflexivity.
Qed.

Lemma digits_value_decimal (n : N) : digits_value (decimal n) = Z.of_N n.
Proof.
  unfold digits_value, decimal.
  change (fun acc c => (10 * acc + (Z.of_N c - 48))%Z) with digit_step.
  rewrite digits_value_uint. f_equal.
  apply DecimalN.Unsigned.of_to.
Qed.

Lemma digits_value_zeros (k : nat) (s : jsstring) :
  digits_value (List.repeat 48%N k ++ s) = digits_value s.
Proof.
  unfold digits_value. rewrite fold_left_app. f_equal.
  induction k as [|k IH]; [reflexivity | exact IH].
Qed.

Lemma take_digits_all (a rest : jsstring) :
  all_digits a ->
  match rest with c :: _ => is_digit c = false | [] => True end ->
  take_digits (a ++ rest) = (a, rest).
Proof.
  intros Ha Hrest. induction Ha as [|c a Hc _ IH].
  - destruct rest as [|c r]; [reflexivity|]. cbn [app take_digits].
    rewrite Hrest. reflexivity.
  - cbn [app take_digits]. rewrite Hc, IH. reflexivity.
Qed.

Lemma digit_not_white (c : code_unit) :
  is_digit c = true -> is_white_space c = false.
Proof.
  unfold is_digit, is_white_space. intros H.
  apply andb_true_iff in H. destruct H as [H1 H2].
  apply N.leb_le in H1, H2.
  cbn [existsb]. repeat (apply orb_false_iff; split);
    try (apply N.eqb_neq; lia); try reflexivity.
  apply andb_false_iff. left. apply N.leb_gt. lia.
Qed.

Lemma parse_unsigned_fixed (f : nat) (n : Z) :
  (0 <= n)%Z ->
  parse_unsigned (fixed_digits (S f) n)
  = Some (LitDecimal n (- Z.of_nat (S f))).
Proof.
  intros Hn. unfold fixed_digits.
  set (d := decimal (Z.to_N n)).
  set (m := List.repeat 48%N (S (S f) - List.length d) ++ d).
  assert (Hlen : S (S f) <= List.length m).
  { unfold m. rewrite length_app, repeat_length.
    generalize (List.length d). clear. intros k. lia. }
  assert (Hm : all_digits m).
  { unfold m. apply Forall_app. split;
      [apply all_digits_zeros | apply decimal_digits]. }
  assert (Hv : digits_value m = n).
  { unfold m, d. rewrite digits_value_zeros, digits_value_decimal.
    apply Z2N.id. exact Hn. }
  rewrite <- (firstn_skipn (List.length m - S f) m) in Hm, Hv.
  set (a := firstn (List.length m - S f) m) in *.
  set (b := skipn (List.length m - S f) m) in *.
  assert (Hb : List.length b = S f).
  { unfold b. rewrite length_skipn.
    revert Hlen. generalize (List.length m). clear. intros k. lia. }
  assert (Hane : a <> []).
  { intros E. apply (f_equal (@List.length _)) in E. unfold a in E.
    rewrite length_firstn in E. cbn [List.length] in E.
    revert Hlen E. generalize (List.length m). clear. intros k. lia. }
  apply Forall_app in Hm. destruct Hm as [Ha Hdb].
  unfold parse_unsigned.
  replace (starts_with (str "Infinity") (a ++ 46%N :: b)) with false.
  2:{ destruct Ha as [|c a' Hc _]; [congruence|].
      change (str "Infinity") with (73%N :: str "nfinity").
      cbn [app starts_with].
      replace (N.eqb 73 c) with false; [reflexivity|].
      symmetry. apply N.eqb_neq. intros <-. discriminate Hc. }
  rewrite (take_digits_all a (46%N :: b) Ha eq_refl).
  rewrite <- (List.app_nil_r b) at 1.
  rewrite (take_digits_all b [] Hdb I).
  rewrite Hv, Hb. destruct a as [|c a']; [congruence|]. reflexivity.
Qed.

Lemma abs_Q_nonneg (x : number) : (0 <= abs_Q x)%Q.
Proof.
  destruct x as [s|s| |s m e]; cbn [abs_Q]; try apply Qle_refl.
  unfold magnitude. destruct e as [|p|p].
  - unfold Qle. cbn. lia.
  - unfold Qle. cbn [inject_Z Qnum Qden].
    assert (0 < 2 ^ Z.pos p)%Z by (apply Z.pow_pos_nonneg; lia). nia.
  - unfold Qle. cbn. lia.
Qed.

Lemma round_half_up_nonneg (q : Q) : (0 <= q)%Q -> (0 <= round_half_up q)%Z.
Proof.
  intros H. unfold round_half_up.
  change 0%Z with (Qfloor 0). apply Qfloor_resp_le.
  rewrite <- (Qplus_0_r 0). apply Qplus_le_compat; [exact H | discriminate].
Qed.

End ParseFacts.

(** X16. The time of a result is kept as the text [toFixed(2)] printed, and
    the total parses it again: below [10^21] the number read back is the
    one nearest to [n / 100], where [n] is the time in hundredths
    rounded to the nearest integer, with the sign of the time. *)
Theorem displayed_time_read_back (x : number) :
  below_1e21 x = true ->
  parseFloat (toFixed 2 x)
  = round_decimal (is_negative x)
      (round_half_up (abs_Q x * inject_Z 100)) (-2).
Proof.
  intros H. rewrite toFixed_2_round by exact H.
  set (n := round_half_up (abs_Q x * inject_Z 100)).
  assert (Hn : (0 <= n)%Z).
  { apply round_half_up_nonneg. apply Qmult_le_0_compat;
      [apply abs_Q_nonneg | discriminate]. }
  pose proof (parse_unsigned_fixed 1 n Hn) as Hp.
  destruct (fixed_digits_start 2 n) as (c & rest & E & Hc).
  unfold parseFloat. destruct (is_negative x).
  - change (str "-" ++ fixed_digits 2 n) with (45%N :: fixed_digits 2 n).
    cbn [trim_start]. change (is_white_space 45) with false. cbv iota.
    rewrite Hp. reflexivity.
  - cbn [app]. rewrite E in Hp |- *. cbn [trim_start].
    rewrite (digit_not_white c Hc).
    assert (c <> 43%N /\ c <> 45%N) as [H43 H45].
    { split; intros ->; discriminate Hc. }
    destruct c as [|p]; [discriminate Hc|].
    do 6 (destruct p as [p|p|]; try discriminate Hc; try congruence;
          try (rewrite Hp; reflexivity)).
Qed.

Lemma displayed_time_read_back_witness :
  below_1e21 (fdiv (of_Z 12504) (of_Z 1000)) = true
  /\ parseFloat (toFixed 2 (fdiv (of_Z 12504) (of_Z 1000)))
     = fdiv (of_Z 1250) (of_Z 100).
Proof.
  assert (H : below_1e21 (fdiv (of_Z 12504) (of_Z 1000)) = true)
    by reflexivity.
  split; [exact H|].
  rewrite (displayed_time_read_back _ H). reflexivity.
Defined.

Section OrderFacts.

Lemma magnitude_pos (m : positive) (e : Z) : (0 < magnitude m e)%Q.
Proof.
  unfold magnitude. destruct e as [|p|p]; unfold Qlt; cbn [inject_Z Qnum Qden].
  - lia.
  - assert (0 < 2 ^ Z.pos p)%Z by (apply Z.pow_pos_nonneg; lia). nia.
  - lia.
Qed.

Ltac power_ring :=
  repeat match goal with
         | |- context [(2 ^ ?e)%Z] => generalize (2 ^ e)%Z; intro
         end;
  cbn [Pos.mul]; ring.

Lemma magnitude_scale (m : positive) (e ez : Z) :
  (ez <= e)%Z ->
  (magnitude m e == inject_Z (Z.pos m * 2 ^ (e - ez)) * magnitude 1 ez)%Q.
Proof.
  intros H. unfold magnitude.
  destruct ez as [|q|q].
  - rewrite Z.sub_0_r. destruct e as [|p|p]; try lia;
      unfold Qeq; cbn [inject_Z Qnum Qden Qmult]; lia.
  - destruct e as [|p|p]; try lia.
    unfold Qeq. cbn [inject_Z Qnum Qden Qmult].
    replace (Z.pos p) with ((Z.pos p - Z.pos q) + Z.pos q)%Z at 1 by lia.
    rewrite Z.pow_add_r by lia. power_ring.
  - destruct e as [|p|p]; unfold Qeq; cbn [inject_Z Qnum Qden Qmult];
      rewrite ?Pos2Z.inj_mul, ?Pos2Z.inj_pow.
    + replace (0 - Z.neg q)%Z with (Z.pos q) by lia.
      rewrite Z.pow_0_r. power_ring.
    + replace (Z.pos p - Z.neg q)%Z with (Z.pos p + Z.pos q)%Z by lia.
      rewrite Z.pow_add_r by lia. power_ring.
    + replace (Z.pos q) with ((Z.neg p - Z.neg q) + Z.pos p)%Z at 1 by lia.
      rewrite Z.pow_add_r by lia. power_ring.
Qed.

Lemma value_scale (s : bool) (m : positive) (e ez : Z) :
  (ez <= e)%Z ->
  (value (S754_finite s m e)
   == inject_Z (cond_Zopp s (Z.pos (fst (shl_align m e ez))))
      * magnitude 1 ez)%Q.
Proof.
  intros H. rewrite shl_align_fst by exact H.
  unfold value. cbn [is_negative abs_Q].
  pose proof (magnitude_scale m e ez H) as E.
  destruct s; cbn [cond_Zopp].
  - rewrite E. change (Z.neg ?p) with (- Z.pos p)%Z.
    rewrite !inject_Z_opp. ring.
  - exact E.
Qed.

Lemma binary_round_aux_unsigned (mx ex : Z) (lx : location) :
  unsigned (binary_round_aux prec emax false mx ex lx) = true.
Proof.
  unfold binary_round_aux.
  destruct (shr_fexp prec emax mx ex lx) as [mrs' e'].
  destruct (shr_fexp prec emax _ e' loc_Exact) as [mrs'' e''].
  destruct (shr_m mrs''); [reflexivity | | reflexivity].
  destruct (Z.leb e'' (emax - prec)); reflexivity.
Qed.

Lemma binary_normalize_unsigned (D ez : Z) :
  (0 <= D)%Z -> unsigned (binary_normalize prec emax D ez false) = true.
Proof.
  intros H. destruct D as [|p|p]; [reflexivity| |lia].
  unfold binary_normalize, binary_round.
  destruct (shl_align _ _ _). apply binary_round_aux_unsigned.
Qed.

(** What is not below zero is printed without a minus sign. *)
Lemma unsigned_no_minus (f : nat) (x : number) :
  unsigned x = true \/ x = S754_zero true ->
  SFltb x zero = false /\ hd_error (toFixed f x) <> Some 45%N.
Proof.
  assert (Hd : forall s, starts_with_digit s -> hd_error s <> Some 45%N).
  { intros s (c & rest & -> & Hc) E. injection E as ->. discriminate Hc. }
  intros [H | ->].
  - destruct x as [[|]|[|]| |[|] m e]; try discriminate H;
      (split; [reflexivity|]); cbn [toFixed]; try discriminate.
    + apply Hd, fixed_digits_start.
    + cbn [app]. destruct (at_least_1e21 m e);
        apply Hd; [apply toString_large_start | apply fixed_digits_start].
  - split; [reflexivity|]. cbn [toFixed]. apply Hd, fixed_digits_start.
Qed.

Lemma fsub_ordered (start now : number) :
  is_finite start = true -> is_finite now = true ->
  (value start <= value now)%Q ->
  unsigned (fsub now start) = true \/ fsub now start = S754_zero true.
Proof.
  destruct now as [sn|sn| |sn mn en]; try discriminate;
    destruct start as [ss|ss| |ss ms es]; try discriminate; intros _ _ H.
  - destruct sn, ss; cbn; auto.
  - left. cbn. destruct ss; [reflexivity|]. exfalso.
    unfold value in H. cbn [is_negative abs_Q] in H.
    pose proof (magnitude_pos ms es) as Hp.
    apply (Qlt_not_le _ _ Hp). exact H.
  - left. cbn. destruct sn; [|reflexivity]. exfalso.
    unfold value in H. cbn [is_negative abs_Q] in H.
    pose proof (magnitude_pos mn en) as Hp.
    apply (Qlt_not_le (- magnitude mn en) 0); [|exact H].
    apply Qlt_minus_iff. rewrite Qopp_involutive, Qplus_0_l. exact Hp.
  - left. unfold fsub, SFsub. apply binary_normalize_unsigned.
    rewrite (value_scale ss ms es (Z.min en es)) in H by lia.
    rewrite (value_scale sn mn en (Z.min en es)) in H by lia.
    apply Qmult_le_r in H; [|apply magnitude_pos].
    rewrite <- Zle_Qle in H. lia.
Qed.

End OrderFacts.

(** X17. A synchronous workload on a clock that does not go backwards
    between its two readings: the time it returns is not below zero, and
    it is printed without a minus sign. *)
Theorem time_is_not_negative (w : Workloads.World) :
  let start := Workloads.clock w (Workloads.reads w) in
  let now := Workloads.clock w (S (Workloads.reads w)) in
  is_finite start = true -> is_finite now = true ->
  (value start <= value now)%Q ->
  exists time w',
    Workloads.timed Workloads.loop w = (Normal time, w')
    /\ SFltb time zero = false
    /\ forall f, hd_error (toFixed f time) <> Some 45%N.
Proof.
  intros start now Hs Hn Hle.
  exists (fsub now start), (Schedule.advance 2 w).
  split; [reflexivity|].
  pose proof (fsub_ordered start now Hs Hn Hle) as H.
  split; [|intros f]; apply (unsigned_no_minus 0 _ H) || apply (unsigned_no_minus f _ H).
Qed.

Lemma time_is_not_negative_witness :
  is_finite (Examples.steady_clock 0) = true
  /\ is_finite (Examples.steady_clock 1) = true
  /\ (value (Examples.steady_clock 0) <= value (Examples.steady_clock 1))%Q
  /\ exists time w',
       Workloads.timed Workloads.loop Examples.steady = (Normal time, w')
       /\ SFltb time zero = false
       /\ forall f, hd_error (toFixed f time) <> Some 45%N.
Proof.
  assert (H0 : is_finite (Examples.steady_clock 0) = true) by reflexivity.
  assert (H1 : is_finite (Examples.steady_clock 1) = true) by reflexivity.
  assert (H : (value (Examples.steady_clock 0)
               <= value (Examples.steady_clock 1))%Q)
    by (vm_compute; discriminate).
  split; [exact H0|]. split; [exact H1|]. split; [exact H|].
  exact (time_is_not_negative Examples.steady H0 H1 H).
Defined.

End ReportOfTheRun.
